(** * film_spider: the category crawler, the film-page classifier and the
      field extractor of [src/film_spider.py], embedded in Rocq.

    Python [str] values are sequences of Unicode code points; the selector
    engine (XPath / CSS over the fetched page) is an external collaborator,
    so a [Response] records the answer of every selector expression the
    spider evaluates.  The callbacks [parse_article] and [is_film_page] run
    in a small monad that logs the selectors evaluated on the response and
    carries the Python exceptions the code could raise; [parse] is a
    generator of requests, which also keeps the requests yielded before an
    exception. *)

From Stdlib Require Import NArith Lia.
From stdpp Require Import base list strings gmap.

(** ** Python strings *)

(** A [str] is a list of code points. *)
Abbreviation pystr := (list N).

Module Utf8.

(** Code points of a source literal: the literals of the spider are written
    as in the Python file and decoded from their UTF-8 bytes (only
    well-formed input is of interest; a truncated sequence is dropped). *)
Fixpoint decode (bs : list N) : list N :=
  match bs with
  | [] => []
  | b0 :: r0 =>
      if N.ltb b0 128 then b0 :: decode r0
      else
        match r0 with
        | [] => []
        | b1 :: r1 =>
            if N.ltb b0 224 then ((b0 - 192) * 64 + (b1 - 128))%N :: decode r1
            else
              match r1 with
              | [] => []
              | b2 :: r2 =>
                  if N.ltb b0 240
                  then ((b0 - 224) * 4096 + (b1 - 128) * 64 + (b2 - 128))%N
                         :: decode r2
                  else
                    match r2 with
                    | [] => []
                    | b3 :: r3 =>
                        ((b0 - 240) * 262144 + (b1 - 128) * 4096
                         + (b2 - 128) * 64 + (b3 - 128))%N :: decode r3
                    end
              end
        end
  end.

Definition bytes (s : string) : list N :=
  map Ascii.N_of_ascii (String.list_ascii_of_string s).

End Utf8.

(** [py "..."] is the Python literal ['...']. *)
Definition py (s : string) : pystr := Utf8.decode (Utf8.bytes s).

(** Truthiness of a [str] and of a list: [if s:] / [if not s:]. *)
Definition truthy {A} (l : list A) : bool :=
  match l with [] => false | _ :: _ => true end.

(** Truthiness of the result of [.get()]: [None] and [''] are both falsy. *)
Definition truthy_opt (o : option pystr) : bool :=
  match o with Some s => truthy s | None => false end.

(** [str.isspace] on one code point (CPython's [_PyUnicode_IsWhitespace]). *)
Definition isspace (c : N) : bool :=
  (N.leb 9 c && N.leb c 13) || (N.leb 28 c && N.leb c 32)
  || N.eqb c 133 || N.eqb c 160 || N.eqb c 5760
  || (N.leb 8192 c && N.leb c 8202)
  || N.eqb c 8232 || N.eqb c 8233 || N.eqb c 8239 || N.eqb c 8287
  || N.eqb c 12288.

Fixpoint lstrip (s : pystr) : pystr :=
  match s with
  | [] => []
  | c :: s' => if isspace c then lstrip s' else s
  end.

Definition rstrip (s : pystr) : pystr := reverse (lstrip (reverse s)).

(** [s.strip()] *)
Definition strip (s : pystr) : pystr := rstrip (lstrip s).

(** A text with something in it and no whitespace at either end. *)
Definition tidy (p : pystr) : Prop :=
  p <> []
  /\ (forall c, head p = Some c -> isspace c = false)
  /\ (forall c, last p = Some c -> isspace c = false).

(** [sep.join(parts)] *)
Fixpoint join (sep : pystr) (parts : list pystr) : pystr :=
  match parts with
  | [] => []
  | [p] => p
  | p :: rest => p ++ sep ++ join sep rest
  end.

Fixpoint starts_with (p s : pystr) : bool :=
  match p, s with
  | [], _ => true
  | _ :: _, [] => false
  | a :: p', b :: s' => N.eqb a b && starts_with p' s'
  end.

(** [needle in hay] on strings: substring test. *)
Fixpoint str_in (needle hay : pystr) : bool :=
  starts_with needle hay
  || match hay with
     | [] => false
     | _ :: hay' => str_in needle hay'
     end.

(** [s.replace(a, b)] for one-character [a] and [b]. *)
Definition replace_char (a b : N) (s : pystr) : pystr :=
  map (fun c => if N.eqb c a then b else c) s.

(** [s.split(sep)] for a non-empty separator: leftmost, non-overlapping
    occurrences.  [skip] counts the characters of a separator occurrence
    still to be consumed and [cur] is the piece being built. *)
Fixpoint split_go (sep : pystr) (skip : nat) (cur : pystr) (s : pystr)
  : list pystr :=
  match s with
  | [] => [cur]
  | c :: s' =>
      match skip with
      | S k => split_go sep k cur s'
      | O =>
          if starts_with sep s
          then cur :: split_go sep (pred (length sep)) [] s'
          else split_go sep O (cur ++ [c]) s'
      end
  end.

Definition split (sep s : pystr) : list pystr := split_go sep O [] s.

(** ** Exceptions, selectors and the callback monad *)

Inductive exn : Type :=
| IndexError
| KeyError (key : string)
| ValueError.

(** One constructor per selector expression evaluated on the response. *)
Inductive selector : Type :=
| SelSubcategories   (* //div[@id="mw-subcategories"]//a/@href *)
| SelPages           (* //div[@id="mw-pages"]//div[contains(@class,"mw-category-group")]//a/@href *)
| SelNextText        (* //a[contains(normalize-space(.), 'Следующая')]/@href *)
| SelNextRel         (* //link[@rel="next"]/@href *)
| SelHeading         (* #firstHeading ::text *)
| SelInfobox         (* //table[contains(@class,'infobox')] *)
| SelInfoboxRows     (* //table[contains(@class,'infobox')]//tr *)
| SelCaption         (* //table[contains(@class,'infobox')]//caption//text() *)
| SelLeadPars        (* //div[@class="mw-parser-output"]/p[not(@class) and normalize-space()]//text() *)
| SelFirstTh         (* //table[contains(@class,'infobox')]//tr/th//text() *)
| SelCatLinks.       (* div#mw-normal-catlinks a::text *)

(** The selectors of the category callback. *)
Definition category_selector (sel : selector) : bool :=
  match sel with
  | SelSubcategories | SelPages | SelNextText | SelNextRel => true
  | _ => false
  end.

(** A computation returns the selectors it evaluated, in order, and either
    an exception or a value. *)
Definition M (A : Type) : Type := (list selector * (exn + A))%type.

Definition mret {A} (a : A) : M A := ([], inr a).

Definition raise {A} (e : exn) : M A := ([], inl e).

Definition mbind {A B} (m : M A) (f : A -> M B) : M B :=
  match m with
  | (w, inl e) => (w, inl e)
  | (w, inr a) => let '(w', r) := f a in (w ++ w', r)
  end.

Declare Scope spider_scope.
Delimit Scope spider_scope with spider.
Notation "x <- m ;; k" := (mbind m (fun x => k))
  (at level 100, m at next level, right associativity) : spider_scope.

(** Evaluating selector [sel] on the response, with answer [v]. *)
Definition select {A} (sel : selector) (v : A) : M A := ([sel], inr v).

Definition trace {A} (m : M A) : list selector := m.1.
Definition outcome {A} (m : M A) : exn + A := m.2.

(** [l[-1]] *)
Definition index_last {A} (l : list A) : M A :=
  match last l with
  | Some x => mret x
  | None => raise IndexError
  end.

(** [d[key]] on a dict *)
Definition getitem (d : gmap string pystr) (key : string) : M pystr :=
  match d !! key with
  | Some v => mret v
  | None => raise (KeyError key)
  end.

(** ** The Unicode tables and the URL library of the Python runtime

    [str.lower], the digit class of [re] ([\d] on [str] patterns is Unicode
    category Nd) and [urllib.parse.unquote] belong to the interpreter and its
    standard library.  They are an interface here, with the facts about them
    that the development relies on: on ASCII and on the Cyrillic block
    U+0400..U+045F lower-casing is character-wise, the ASCII decimal digits
    are '0'..'9', and the Cyrillic block holds no decimal digit. *)

Definition lower_char (c : N) : N :=
  if N.leb 65 c && N.leb c 90 then (c + 32)%N            (* A-Z *)
  else if N.leb 1024 c && N.leb c 1039 then (c + 80)%N   (* U+0400..U+040F *)
  else if N.leb 1040 c && N.leb c 1071 then (c + 32)%N   (* U+0410..U+042F *)
  else c.

Definition plain_char (c : N) : Prop :=
  (c < 128)%N \/ (1024 <= c <= 1119)%N.

Definition ascii_digit (c : N) : bool := N.leb 48 c && N.leb c 57.

(** The characters whose digit status the interface fixes. *)
Definition tabled_char (c : N) : bool :=
  N.ltb c 128 || (N.leb 1024 c && N.leb c 1279).

Class PyRuntime : Type := {
  (** [s.lower()] *)
  str_lower : pystr -> pystr;
  (** the class [\d] of [re] *)
  isdecimal : N -> bool;
  (** [unquote(s)]; [None] when the call raises *)
  unquote : pystr -> option pystr;
  str_lower_plain :
    forall s, Forall plain_char s -> str_lower s = map lower_char s;
  isdecimal_ascii :
    forall c, (c < 128)%N -> isdecimal c = ascii_digit c;
  isdecimal_cyrillic :
    forall c, (1024 <= c <= 1279)%N -> isdecimal c = false;
}.

(** ** Literals of the spider *)

(** ['не указано'] *)
Definition sentinel : pystr := Eval vm_compute in py "не указано".
Definition kw_genre : pystr := Eval vm_compute in py "жанр".
Definition kw_director : pystr := Eval vm_compute in py "режис".
Definition kw_country : pystr := Eval vm_compute in py "стра".
Definition kw_year : pystr := Eval vm_compute in py "год".
Definition kw_film : pystr := Eval vm_compute in py "фильм".
Definition kw_films : pystr := Eval vm_compute in py "фильмы".
Definition wiki_sep : pystr := Eval vm_compute in py "/wiki/".
Definition colon : pystr := Eval vm_compute in py ":".
Definition space : pystr := Eval vm_compute in py " ".
Definition comma_space : pystr := Eval vm_compute in py ", ".

(** ** The response and the values the callbacks produce *)

(** One infobox row ([tr]) with the answers of the two relative selectors
    evaluated on it: [./th//text()] and [./td//text()]. *)
Record Row : Type := {
  th_texts : list pystr;
  td_texts : list pystr;
}.

(** A fetched page: its URL and the answer ([getall()], in document order)
    of every selector of the spider; [.get()] is the first answer. *)
Record Response : Type := {
  url : pystr;
  subcategory_hrefs : list pystr;
  page_hrefs : list pystr;
  next_text_hrefs : list pystr;
  next_rel_hrefs : list pystr;
  heading_texts : list pystr;
  infobox_tables : nat;
  infobox_rows : list Row;
  caption_texts : list pystr;
  lead_texts : list pystr;
  th_texts_all : list pystr;
  catlink_texts : list pystr;
}.

Inductive callback : Type := cb_parse | cb_parse_article.

(** A request: the URL the framework resolved for it and the callback that
    receives the fetched page. *)
Record Request : Type := {
  req_url : pystr;
  req_callback : callback;
}.

(** ** URL resolution and request construction

    [response.urljoin], [scrapy.Request] and [response.follow] belong to the
    framework.  Each is a function of the page and of the href; it gives the
    URL of the request, or nothing when the call raises [ValueError] (an href
    that cannot be joined to the base URL, or a result without a scheme, such
    as a [mailto:] link). *)
Class Framework : Type := {
  (** [scrapy.Request(response.urljoin(href), ...)] *)
  request_url : Response -> pystr -> option pystr;
  (** [response.follow(href, ...)] *)
  follow_url : Response -> pystr -> option pystr;
}.

(** ** Generators of requests

    [parse] is a generator: a run of it evaluates selectors, yields requests
    one by one, and ends normally or with an exception; the requests yielded
    before an exception stay yielded. *)
Definition G (A : Type) : Type :=
  (list selector * (list Request * (exn + A)))%type.

Definition gret {A} (a : A) : G A := ([], ([], inr a)).

Definition graise {A} (e : exn) : G A := ([], ([], inl e)).

Definition gbind {A B} (m : G A) (f : A -> G B) : G B :=
  match m with
  | (w, (ys, inl e)) => (w, (ys, inl e))
  | (w, (ys, inr a)) => let '(w', (ys', r)) := f a in (w ++ w', (ys ++ ys', r))
  end.

Declare Scope generator_scope.
Delimit Scope generator_scope with generator.
Notation "x <- m ;; k" := (gbind m (fun x => k))
  (at level 100, m at next level, right associativity) : generator_scope.

(** [yield r] *)
Definition yield (r : Request) : G unit := ([], ([r], inr tt)).

Definition gselect {A} (sel : selector) (v : A) : G A := ([sel], ([], inr v)).

(** A computation that yields nothing, inside a generator. *)
Definition lift {A} (m : M A) : G A := (m.1, ([], m.2)).

(** The selectors a run evaluated, the requests it yielded, and the
    exception it ended with, if any. *)
Definition gen_trace {A} (g : G A) : list selector := g.1.
Definition yields {A} (g : G A) : list Request := g.2.1.
Definition ending {A} (g : G A) : option exn :=
  match g.2.2 with
  | inl e => Some e
  | inr _ => None
  end.

(** Modelled from the spec: the frontier of the crawl, that is the
    FrontierScheduler with its VisitedSet (spec sections 3, 4.1 and 8).  The
    repository holds no such code: [film_spider.py] only yields requests and
    hands them to the scheduler of the framework.  A URLTarget is the URL of
    a request; [visited] is the VisitedSet and [fetched] lists the requests
    that were enqueued for fetching, oldest first.  A request whose URL is in
    the VisitedSet is dropped; otherwise its URL is inserted and the request
    is enqueued. *)
Record Frontier : Type := {
  visited : gset pystr;
  fetched : list Request;
}.

Definition empty_frontier : Frontier := {| visited := ∅; fetched := [] |}.

Definition enqueue (f : Frontier) (r : Request) : Frontier :=
  if decide (req_url r ∈ visited f) then f
  else {| visited := {[ req_url r ]} ∪ visited f;
          fetched := fetched f ++ [r] |}.

Definition enqueue_all (f : Frontier) (rs : list Request) : Frontier :=
  fold_left enqueue rs f.

(** The VisitedSet holds exactly the URLs of the enqueued requests, each
    enqueued once. *)
Definition frontier_ok (f : Frontier) : Prop :=
  NoDup (map req_url (fetched f))
  /\ forall u, u ∈ visited f <-> u ∈ map req_url (fetched f).

(** [FilmItem(dict)] *)
Abbreviation FilmItem := (gmap string pystr).

(** The keys of a record, and a record with exactly these keys, each bound
    to a non-empty string. *)
Definition five_keys : gset string :=
  {[ "title"; "genre"; "director"; "country"; "year" ]}.

Definition complete_record (item : FilmItem) : Prop :=
  dom item = five_keys /\ map_Forall (fun _ v => v <> []) item.

Section Spider.

Context `{R : PyRuntime} `{F : Framework}.
Local Open Scope spider_scope.

(** [re.search(r'(\d{4})', s)], as [m.group(1)] when there is a match:
    the leftmost four consecutive decimal digits. *)
Definition four_digits (s : pystr) : option pystr :=
  match s with
  | a :: b :: c :: d :: _ =>
      if isdecimal a && isdecimal b && isdecimal c && isdecimal d
      then Some [a; b; c; d] else None
  | _ => None
  end.

Fixpoint re_search_year (s : pystr) : option pystr :=
  match four_digits s with
  | Some m => Some m
  | None =>
      match s with
      | [] => None
      | _ :: s' => re_search_year s'
      end
  end.

(** [[p.strip() for p in parts if p.strip()]] *)
Definition stripped_parts (parts : list pystr) : list pystr :=
  map strip (List.filter (fun p => truthy (strip p)) parts).

(** The lower-cased start of the lead paragraphs, as [is_film_page]
    builds it: [' '.join(first_pars[:200]).lower() if first_pars else '']. *)
Definition lead_text (first_pars : list pystr) : pystr :=
  if truthy first_pars then str_lower (join space (take 200 first_pars))
  else [].

(** *** [is_film_page] (lines 143-173) *)
Definition is_film_page (response : Response) : M bool :=
  tables <- select SelInfobox (infobox_tables response) ;;
  let has_infobox := negb (Nat.eqb tables 0) in
  if negb has_infobox then mret false else
  caption <- select SelCaption (head (caption_texts response)) ;;
  if match caption with
     | Some c => truthy c && str_in kw_film (str_lower c)
     | None => false
     end
  then mret true else
  first_pars <- select SelLeadPars (lead_texts response) ;;
  let first_text := lead_text first_pars in
  if str_in kw_film first_text then mret true else
  first_th <- select SelFirstTh (head (th_texts_all response)) ;;
  if match first_th with
     | Some t => truthy t && str_in kw_film (str_lower t)
     | None => false
     end
  then mret true else
  cats <- select SelCatLinks (catlink_texts response) ;;
  let cats := map (fun c => str_lower (strip c)) cats in
  mret (existsb (fun c => str_in kw_film c || str_in kw_films c) cats).

(** *** Title resolution of [parse_article] (lines 74-89) *)
Definition article_title (response : Response) : M pystr :=
  heading_parts <- select SelHeading (heading_texts response) ;;
  let title := strip (join space (stripped_parts heading_parts)) in
  title <- (if negb (truthy title)
            then
              raw <- index_last (split wiki_sep (url response)) ;;
              let raw := replace_char 95 32 raw in
              mret (match unquote raw with
                    | Some t => t
                    | None => raw
                    end)
            else mret title) ;;
  mret (if negb (truthy title) then sentinel else title).

(** The text after the last ['/wiki/'] of a URL or link. *)
Definition wiki_tail (href : pystr) : pystr :=
  default [] (last (split wiki_sep href)).

(** The two candidate titles of lines 74-85: the heading text, and the
    title decoded from the text after the last ['/wiki/'] of a URL. *)
Definition heading_text (response : Response) : pystr :=
  strip (join space (stripped_parts (heading_texts response))).

Definition url_title (tail : pystr) : pystr :=
  let raw := replace_char 95 32 tail in
  match unquote raw with
  | Some t => t
  | None => raw
  end.

(** *** The body of the loop over the infobox rows (lines 108-132) *)
Definition row_label (row : Row) : pystr := strip (concat (th_texts row)).

Definition row_value (row : Row) : pystr :=
  let td_parts := stripped_parts (td_texts row) in
  if truthy td_parts then strip (join comma_space td_parts) else [].

Definition process_row (item : FilmItem) (row : Row) : FilmItem :=
  let th := row_label row in
  let td := row_value row in
  if negb (truthy th) then item else
  let th_lower := str_lower th in
  if str_in kw_genre th_lower then
    if truthy td then <["genre" := td]> item else item
  else if str_in kw_director th_lower then
    if truthy td then <["director" := td]> item else item
  else if str_in kw_country th_lower then
    if truthy td then <["country" := td]> item else item
  else if str_in kw_year th_lower then
    if truthy td then
      match re_search_year td with
      | Some m => <["year" := m]> item
      | None => <["year" := td]> item
      end
    else item
  else item.

(** The field a row is routed to by its label, in the order of the
    [if]/[elif] chain, and the value the chain stores for a joined value. *)
Definition row_field (row : Row) : option string :=
  let th := row_label row in
  if negb (truthy th) then None else
  let th_lower := str_lower th in
  if str_in kw_genre th_lower then Some "genre"
  else if str_in kw_director th_lower then Some "director"
  else if str_in kw_country th_lower then Some "country"
  else if str_in kw_year th_lower then Some "year"
  else None.

Definition year_value (td : pystr) : pystr :=
  match re_search_year td with
  | Some m => m
  | None => td
  end.

Definition stored_value (field : string) (td : pystr) : pystr :=
  if decide (field = "year") then year_value td else td.

(** A run of four decimal digits, and a string that contains one. *)
Definition digit_run (run : pystr) : Prop :=
  length run = 4 /\ Forall (fun c => isdecimal c = true) run.

Definition has_digit_run (s : pystr) : Prop :=
  exists pre run post, s = pre ++ run ++ post /\ digit_run run.

(** [FilmItem({...})] with every field but the title at the sentinel
    (lines 97-103). *)
Definition initial_item (title : pystr) : FilmItem :=
  <["title" := title]> (<["genre" := sentinel]> (<["director" := sentinel]>
    (<["country" := sentinel]> (<["year" := sentinel]> ∅)))).

(** *** Field extraction of [parse_article] (lines 97-141): the item that
    is yielded for a page already accepted as a film. *)
Definition extract_item (title : pystr) (response : Response) : M FilmItem :=
  let item := initial_item title in
  rows <- select SelInfoboxRows (infobox_rows response) ;;
  let item := fold_left process_row rows item in
  year <- getitem item "year" ;;
  if decide (year = sentinel) then
    first_pars <- select SelLeadPars (lead_texts response) ;;
    let first_text := strip (join space (map strip first_pars)) in
    mret (match re_search_year first_text with
          | Some m => <["year" := m]> item
          | None => item
          end)
  else mret item.

(** *** [parse_article] (lines 69-141): the list of the items it yields. *)
Definition parse_article (response : Response) : M (list FilmItem) :=
  title <- article_title response ;;
  film <- is_film_page response ;;
  if negb film then mret [] else
  item <- extract_item title response ;;
  mret [item].

(** The links [parse] keeps: those whose last segment holds no [':']. *)
Definition kept_link (href : pystr) : bool := negb (str_in colon (wiki_tail href)).

(** *** [parse] (lines 43-67), as a generator of requests. *)

(** [yield scrapy.Request(response.urljoin(href), callback=cb)] *)
Definition yield_request (response : Response) (href : pystr) (cb : callback)
  : G unit :=
  match request_url response href with
  | Some u => yield (Build_Request u cb)
  | None => graise ValueError
  end.

(** The loop over the subcategory links (lines 49-51). *)
Fixpoint subcategory_requests (response : Response) (subcats : list pystr)
  : G unit :=
  match subcats with
  | [] => gret tt
  | href :: rest =>
      (done <- yield_request response href cb_parse ;;
       subcategory_requests response rest)%generator
  end.

(** The loop over the page links (lines 55-60). *)
Fixpoint page_requests (response : Response) (page_links : list pystr)
  : G unit :=
  match page_links with
  | [] => gret tt
  | href :: rest =>
      (tail <- lift (index_last (split wiki_sep href)) ;;
       if str_in colon tail then page_requests response rest
       else
         done <- yield_request response href cb_parse_article ;;
         page_requests response rest)%generator
  end.

(** Pagination (lines 63-67). *)
Definition next_page_requests (response : Response) : G unit :=
  (next_page <- gselect SelNextText (head (next_text_hrefs response)) ;;
   next_page <- (if negb (truthy_opt next_page)
                 then gselect SelNextRel (head (next_rel_hrefs response))
                 else gret next_page) ;;
   match next_page with
   | Some href =>
       if truthy href then
         match follow_url response href with
         | Some u => yield (Build_Request u cb_parse)
         | None => graise ValueError
         end
       else gret tt
   | None => gret tt
   end)%generator.

(** The href the pagination step settles on. *)
Definition chosen_next (response : Response) : option pystr :=
  if truthy_opt (head (next_text_hrefs response))
  then head (next_text_hrefs response)
  else head (next_rel_hrefs response).

(** The two loops of [parse], before pagination (lines 48-60). *)
Definition link_requests (response : Response) : G unit :=
  (subcats <- gselect SelSubcategories (subcategory_hrefs response) ;;
   done <- subcategory_requests response subcats ;;
   page_links <- gselect SelPages (page_hrefs response) ;;
   page_requests response page_links)%generator.

Definition parse (response : Response) : G unit :=
  (subcats <- gselect SelSubcategories (subcategory_hrefs response) ;;
   done <- subcategory_requests response subcats ;;
   page_links <- gselect SelPages (page_hrefs response) ;;
   done <- page_requests response page_links ;;
   next_page_requests response)%generator.

(** The requests a loop yields for a list of hrefs: one per href, in order,
    up to the first href that cannot be turned into a request. *)
Fixpoint requests_until_error
    (response : Response) (cb : callback) (hrefs : list pystr)
  : list Request :=
  match hrefs with
  | [] => []
  | href :: rest =>
      match request_url response href with
      | Some u => Build_Request u cb :: requests_until_error response cb rest
      | None => []
      end
  end.

(** Whether every href of a list can be turned into a request. *)
Fixpoint all_requestable (response : Response) (hrefs : list pystr) : bool :=
  match hrefs with
  | [] => true
  | href :: rest =>
      match request_url response href with
      | Some _ => all_requestable response rest
      | None => false
      end
  end.

(** One step of the crawl on a category page, and a crawl from seed
    requests over the category pages it fetches: every request [parse]
    yields is submitted to the frontier. *)
Definition crawl_category (f : Frontier) (response : Response) : Frontier :=
  enqueue_all f (yields (parse response)).

Definition crawl (seeds : list Request) (pages : list Response) : Frontier :=
  fold_left crawl_category pages (enqueue_all empty_frontier seeds).

(** The four signals of [is_film_page], in the order the code tests them:
    the first caption text, the start of the lead paragraphs, the first
    infobox header text and the category links. *)
Definition caption_signal (response : Response) : bool :=
  match head (caption_texts response) with
  | Some c => truthy c && str_in kw_film (str_lower c)
  | None => false
  end.

Definition lead_signal (response : Response) : bool :=
  str_in kw_film (lead_text (lead_texts response)).

Definition first_th_signal (response : Response) : bool :=
  match head (th_texts_all response) with
  | Some t => truthy t && str_in kw_film (str_lower t)
  | None => false
  end.

Definition catlink_signal (response : Response) : bool :=
  existsb (fun c => str_in kw_film (str_lower (strip c)))
          (catlink_texts response).

(** The text in which the year fallback of lines 135-140 searches. *)
Definition lead_year_text (response : Response) : pystr :=
  strip (join space (map strip (lead_texts response))).

(** The year fallback of lines 135-140 applied to an item. *)
Definition with_year_fallback (item : FilmItem) (response : Response)
  : FilmItem :=
  if decide (item !! "year" = Some sentinel) then
    match re_search_year (lead_year_text response) with
    | Some m => <["year" := m]> item
    | None => item
    end
  else item.

(** The year held by an item is a fixed point of the year normalization. *)
Definition year_normal (item : FilmItem) : Prop :=
  forall y, item !! "year" = Some y -> year_value y = y.

(** The genre, director and country held by an item are trimmed. *)
Definition fields_trimmed (item : FilmItem) : Prop :=
  forall k v,
    k = "genre" \/ k = "director" \/ k = "country" ->
    item !! k = Some v -> strip v = v.

(** The item after the loop over the infobox rows (lines 97-132). *)
Definition rows_item (title : pystr) (response : Response) : FilmItem :=
  fold_left process_row (infobox_rows response) (initial_item title).

(** The title, the verdict and the record of an article page, put together
    from the pieces above. *)
Definition resolved_title (response : Response) : pystr :=
  if truthy (heading_text response) then heading_text response
  else if truthy (url_title (wiki_tail (url response)))
       then url_title (wiki_tail (url response))
       else sentinel.

Definition accepted (response : Response) : bool :=
  negb (Nat.eqb (infobox_tables response) 0)
  && (caption_signal response || lead_signal response
      || first_th_signal response || catlink_signal response).

Definition record_of (response : Response) : FilmItem :=
  with_year_fallback (rows_item (resolved_title response) response) response.

End Spider.

(** ** A reference runtime

    An executable runtime for the sample pages: character-wise lower-casing
    (exact on ASCII and on U+0400..U+045F), the ASCII digits (exact on ASCII
    and on the Cyrillic block), and [unquote] as urllib computes it on
    input: a string without ['%'] is returned unchanged, an escape [%XX]
    stands for the byte [XX], and runs of bytes are decoded as UTF-8, every
    maximal ill-formed part (overlong forms, surrogates and values above
    U+10FFFF included) giving one U+FFFD. *)

Definition percent : pystr := Eval vm_compute in py "%".

Definition ref_lower (s : pystr) : pystr := map lower_char s.

Definition hex_value (c : N) : option N :=
  if N.leb 48 c && N.leb c 57 then Some (c - 48)%N
  else if N.leb 65 c && N.leb c 70 then Some (c - 55)%N
  else if N.leb 97 c && N.leb c 102 then Some (c - 87)%N
  else None.

(** The units of a string: [(true, b)] for the byte of an escape, and
    [(false, c)] for a character that is not part of one.  [skip] counts the
    hex digits of an escape still to be consumed. *)
Fixpoint percent_units (skip : nat) (s : pystr) : list (bool * N) :=
  match s with
  | [] => []
  | c :: s' =>
      match skip with
      | S k => percent_units k s'
      | O =>
          match N.eqb c 37, s' with
          | true, h :: l :: _ =>
              match hex_value h, hex_value l with
              | Some a, Some b => (true, (16 * a + b)%N) :: percent_units 2 s'
              | _, _ => (false, c) :: percent_units 0 s'
              end
          | _, _ => (false, c) :: percent_units 0 s'
          end
      end
  end.

Definition continuation (u : bool * N) : option N :=
  if u.1 && N.leb 128 u.2 && N.ltb u.2 192 then Some (u.2 - 128)%N else None.

(** Whether continuation value [c1] may follow lead byte [b0]: this excludes
    overlong forms, surrogates and code points above U+10FFFF. *)
Definition second_ok (b0 c1 : N) : bool :=
  if N.eqb b0 224 then N.leb 32 c1
  else if N.eqb b0 237 then N.ltb c1 32
  else if N.eqb b0 240 then N.leb 16 c1
  else if N.eqb b0 244 then N.ltb c1 16
  else true.

Fixpoint decode_units (us : list (bool * N)) : pystr :=
  match us with
  | [] => []
  | u0 :: r0 =>
      let b0 := u0.2 in
      if negb u0.1 || N.ltb b0 128 then b0 :: decode_units r0
      else if N.ltb b0 194 || N.leb 245 b0 then 65533%N :: decode_units r0
      else
        match r0 with
        | [] => [65533%N]
        | u1 :: r1 =>
            match continuation u1 with
            | None => 65533%N :: decode_units r0
            | Some c1 =>
                if negb (second_ok b0 c1) then 65533%N :: decode_units r0
                else if N.ltb b0 224
                then ((b0 - 192) * 64 + c1)%N :: decode_units r1
                else
                  match r1 with
                  | [] => [65533%N]
                  | u2 :: r2 =>
                      match continuation u2 with
                      | None => 65533%N :: decode_units r1
                      | Some c2 =>
                          if N.ltb b0 240
                          then ((b0 - 224) * 4096 + c1 * 64 + c2)%N
                                 :: decode_units r2
                          else
                            match r2 with
                            | [] => [65533%N]
                            | u3 :: r3 =>
                                match continuation u3 with
                                | None => 65533%N :: decode_units r2
                                | Some c3 =>
                                    ((b0 - 240) * 262144 + c1 * 4096
                                     + c2 * 64 + c3)%N :: decode_units r3
                                end
                            end
                      end
                  end
            end
        end
  end.

Definition ref_unquote (s : pystr) : option pystr :=
  Some (if str_in percent s then decode_units (percent_units 0 s) else s).

#[export] Instance ref_runtime : PyRuntime.
Proof.
  refine {| str_lower := ref_lower;
            isdecimal := ascii_digit;
            unquote := ref_unquote |}.
  - intros s _. reflexivity.
  - intros c _. reflexivity.
  - intros c [Hlo Hhi]. unfold ascii_digit.
    apply andb_false_iff. right. apply N.leb_gt. lia.
Defined.

(** ** A reference framework

    URL resolution where it is plain: a root-relative href (one leading "/",
    only unreserved ASCII characters and the delimiters below, no dot
    segment) against an "https://host/..." page gives "https://host" followed
    by the href, for [urljoin] with [Request] and for [follow] alike.  Any
    other href is reported as failing, as the real calls do for a [mailto:]
    link or a malformed host; such hrefs are outside what this instance
    describes. *)

Definition https_prefix : pystr := Eval vm_compute in py "https://".
Definition slash : pystr := Eval vm_compute in py "/".
Definition double_slash : pystr := Eval vm_compute in py "//".
Definition slash_dot : pystr := Eval vm_compute in py "/.".
Definition href_delimiters : pystr := Eval vm_compute in py "/_-.?=&:(),".

Definition alnum_char (c : N) : bool :=
  (N.leb 48 c && N.leb c 57) || (N.leb 65 c && N.leb c 90)
  || (N.leb 97 c && N.leb c 122).

Definition href_char (c : N) : bool :=
  alnum_char c || existsb (N.eqb c) href_delimiters.

Definition host_char (c : N) : bool :=
  (N.leb 48 c && N.leb c 57) || (N.leb 97 c && N.leb c 122)
  || N.eqb c 45 || N.eqb c 46.

Fixpoint host_span (s : pystr) : pystr * pystr :=
  match s with
  | [] => ([], [])
  | c :: s' =>
      if host_char c then let '(h, rest) := host_span s' in (c :: h, rest)
      else ([], s)
  end.

(** ["https://host"] of a page URL. *)
Definition ref_origin (base : pystr) : option pystr :=
  if starts_with https_prefix base then
    let '(host, rest) := host_span (drop 8 base) in
    if truthy host && (negb (truthy rest) || starts_with slash rest)
    then Some (https_prefix ++ host) else None
  else None.

Definition plain_href (href : pystr) : bool :=
  starts_with slash href && negb (starts_with double_slash href)
  && forallb href_char href && negb (str_in slash_dot href).

Definition ref_resolve (response : Response) (href : pystr) : option pystr :=
  match ref_origin (url response) with
  | Some origin => if plain_href href then Some (origin ++ href) else None
  | None => None
  end.

#[export] Instance ref_framework : Framework :=
  {| request_url := ref_resolve; follow_url := ref_resolve |}.

(** ** Sample pages *)

Module Samples.

Definition empty_page (u : pystr) : Response := {|
  url := u;
  subcategory_hrefs := []; page_hrefs := [];
  next_text_hrefs := []; next_rel_hrefs := [];
  heading_texts := []; infobox_tables := 0; infobox_rows := [];
  caption_texts := []; lead_texts := []; th_texts_all := [];
  catlink_texts := [];
|}.

Definition row (label value : string) : Row :=
  {| th_texts := [py label]; td_texts := [py value] |}.

(** An article with an infobox captioned as a film, whose heading has no
    text and whose URL has nothing after ['/wiki/']. *)
Definition untitled_film : Response := {|
  url := py "https://ru.wikipedia.org/wiki/";
  subcategory_hrefs := []; page_hrefs := [];
  next_text_hrefs := []; next_rel_hrefs := [];
  heading_texts := [];
  infobox_tables := 1;
  infobox_rows := [row "Жанр" "драма"; row "Год" "2015 год"];
  caption_texts := [py "Фильм"];
  lead_texts := [];
  th_texts_all := [py "Жанр"; py "Год"];
  catlink_texts := [];
|}.

(** An article about a person: an infobox, and the word for film nowhere. *)
Definition person_page : Response := {|
  url := py "https://ru.wikipedia.org/wiki/Иванов";
  subcategory_hrefs := []; page_hrefs := [];
  next_text_hrefs := []; next_rel_hrefs := [];
  heading_texts := [py "Иванов"];
  infobox_tables := 1;
  infobox_rows := [row "Страна" "Россия"];
  caption_texts := [py "Иванов"];
  lead_texts := [py "Иванов"; py " - режиссёр."];
  th_texts_all := [py "Страна"];
  catlink_texts := [py "Режиссёры"];
|}.

(** A category page that lists the same subcategory twice, with a talk page
    among its page links. *)
Definition twice_listed : Response := {|
  url := py "https://ru.wikipedia.org/wiki/Category:Films";
  subcategory_hrefs :=
    [py "/wiki/Category:Soviet_films"; py "/wiki/Category:Soviet_films"];
  page_hrefs := [py "/wiki/Solaris_(1972)"; py "/wiki/Talk:Solaris_(1972)"];
  next_text_hrefs := [py "/w/index.php?from=B"];
  next_rel_hrefs := [py "/w/index.php?from=C"];
  heading_texts := []; infobox_tables := 0; infobox_rows := [];
  caption_texts := []; lead_texts := []; th_texts_all := [];
  catlink_texts := [];
|}.


(** A category page with a [mailto:] link between two subcategory links. *)
Definition mailto_link : Response := {|
  url := py "https://ru.wikipedia.org/wiki/Category:Films";
  subcategory_hrefs :=
    [py "/wiki/Category:A"; py "mailto:webmaster@example.org";
     py "/wiki/Category:B"];
  page_hrefs := [py "/wiki/Solaris_(1972)"];
  next_text_hrefs := [py "/w/index.php?from=B"];
  next_rel_hrefs := [];
  heading_texts := []; infobox_tables := 0; infobox_rows := [];
  caption_texts := []; lead_texts := []; th_texts_all := [];
  catlink_texts := [];
|}.

(** A film article: the keyword occurs in the lead paragraph only. *)
Definition solaris : Response := {|
  url := py "https://ru.wikipedia.org/wiki/Солярис_(фильм,_1972)";
  subcategory_hrefs := []; page_hrefs := [];
  next_text_hrefs := []; next_rel_hrefs := [];
  heading_texts := [py "Солярис"; py " (фильм, 1972) "];
  infobox_tables := 1;
  infobox_rows :=
    [ {| th_texts := []; td_texts := [py "Постер"] |};
      row "Жанр" "драма";
      {| th_texts := [py "Режиссёр"]; td_texts := [py " Андрей Тарковский "; py " "] |};
      {| th_texts := [py "Страна"]; td_texts := [py "СССР"] |};
      {| th_texts := [py "Год"]; td_texts := [py "1972"; py " год"] |} ];
  caption_texts := [py "Солярис"];
  lead_texts := [py "Солярис"; py " - советский фильм 1972 года."];
  th_texts_all := [py "Жанр"; py "Режиссёр"; py "Страна"; py "Год"];
  catlink_texts := [py "Фильмы СССР 1972 года"];
|}.

End Samples.

(** ** Sanity checks of the string primitives *)

Example py_genre : py "жанр" = [1078; 1072; 1085; 1088]%N.
Proof. reflexivity. Qed.

Example strip_spaces : strip (py "  2015 год ") = py "2015 год".
Proof. reflexivity. Qed.

Example split_wiki :
  split wiki_sep (py "https://ru.wikipedia.org/wiki/Inception_(film)")
  = [py "https://ru.wikipedia.org"; py "Inception_(film)"].
Proof. reflexivity. Qed.

Example split_overlap : split wiki_sep (py "/wiki/wiki/") = [[]; py "wiki/"].
Proof. reflexivity. Qed.

Example join_parts : join comma_space [py "a"; py "b"; py "c"] = py "a, b, c".
Proof. reflexivity. Qed.

Example title_from_url :
  outcome (article_title
             (Samples.empty_page (py "https://ru.wikipedia.org/wiki/Inception_(film)")))
  = inr (py "Inception (film)").
Proof. reflexivity. Qed.

Example title_from_escaped_url :
  outcome (article_title
             (Samples.empty_page
                (py "https://ru.wikipedia.org/wiki/%D0%A1%D0%BE%D0%BB%D1%8F%D1%80%D0%B8%D1%81_(%D1%84%D0%B8%D0%BB%D1%8C%D0%BC,_1972)")))
  = inr (py "Солярис (фильм, 1972)").
Proof. vm_compute. reflexivity. Qed.

Example parse_article_solaris :
  outcome (parse_article Samples.solaris)
  = inr [ <["title" := py "Солярис (фильм, 1972)"]>
            (<["genre" := py "драма"]>
               (<["director" := py "Андрей Тарковский"]>
                  (<["country" := py "СССР"]>
                     (<["year" := py "1972"]> ∅)))) ].
Proof. vm_compute. reflexivity. Qed.

Example parse_article_person : outcome (parse_article Samples.person_page) = inr [].
Proof. reflexivity. Qed.

Example parse_twice_listed :
  parse Samples.twice_listed
  = ( [SelSubcategories; SelPages; SelNextText],
      ( [ Build_Request (py "https://ru.wikipedia.org/wiki/Category:Soviet_films") cb_parse;
          Build_Request (py "https://ru.wikipedia.org/wiki/Category:Soviet_films") cb_parse;
          Build_Request (py "https://ru.wikipedia.org/wiki/Solaris_(1972)") cb_parse_article;
          Build_Request (py "https://ru.wikipedia.org/w/index.php?from=B") cb_parse ],
        inr tt ) ).
Proof. vm_compute. reflexivity. Qed.

Example parse_mailto_link :
  parse Samples.mailto_link
  = ( [SelSubcategories],
      ( [ Build_Request (py "https://ru.wikipedia.org/wiki/Category:A") cb_parse ],
        inl ValueError ) ).
Proof. vm_compute. reflexivity. Qed.

Example unquote_truncated :
  ref_unquote (py "%F0%9F%98") = Some [65533%N]
  /\ ref_unquote (py "%E2%82%ACx%41%zz%") = Some (py "€xA%zz%")
  /\ ref_unquote (py "a%C3б%A9") = Some [97; 65533; 1073; 65533]%N.
Proof. repeat split; vm_compute; reflexivity. Qed.

Example unquote_overlong :
  ref_unquote (py "%C0%AF%E0%80%80%ED%A0%80%F4%90%80%80%E2%82A")
  = Some [65533; 65533; 65533; 65533; 65533; 65533; 65533; 65533; 65533;
          65533; 65533; 65533; 65533; 65]%N.
Proof. vm_compute. reflexivity. Qed.

(** ** The callback monad *)

Lemma mbind_select {A B} (sel : selector) (v : A) (f : A -> M B) :
  mbind (select sel v) f = (sel :: (f v).1, (f v).2).
Proof. unfold mbind, select. destruct (f v) as [w r]. reflexivity. Qed.

Lemma mbind_mret {A B} (a : A) (f : A -> M B) : mbind (mret a) f = f a.
Proof. unfold mbind, mret. destruct (f a) as [w r]. reflexivity. Qed.

Lemma outcome_mbind {A B} (m : M A) (f : A -> M B) (a : A) :
  outcome m = inr a -> outcome (mbind m f) = outcome (f a).
Proof.
  destruct m as [w [e|a']]; unfold outcome; simpl; intros Hm; [discriminate|].
  injection Hm as ->. destruct (f a) as [w' r]. reflexivity.
Qed.

Lemma trace_mbind {A B} (m : M A) (f : A -> M B) (a : A) :
  outcome m = inr a -> trace (mbind m f) = trace m ++ trace (f a).
Proof.
  destruct m as [w [e|a']]; unfold outcome, trace; simpl; intros Hm; [discriminate|].
  injection Hm as ->. destruct (f a) as [w' r]. reflexivity.
Qed.

(** ** Facts about the string primitives *)

Lemma truthy_true {A} (l : list A) : truthy l = true <-> l <> [].
Proof. destruct l; simpl; split; congruence. Qed.

Lemma truthy_false {A} (l : list A) : truthy l = false <-> l = [].
Proof. destruct l; simpl; split; congruence. Qed.

Lemma starts_with_app (p q s : pystr) :
  starts_with (p ++ q) s = true -> starts_with p s = true.
Proof.
  revert s. induction p as [|a p IH]; intros s; simpl; [reflexivity|].
  destruct s as [|b s]; [discriminate|].
  rewrite !andb_true_iff. intros [Hab Hrest]. split; [exact Hab|].
  apply IH. exact Hrest.
Qed.

(** A string that contains [p ++ q] contains [p]. *)
Lemma str_in_app (p q s : pystr) :
  str_in (p ++ q) s = true -> str_in p s = true.
Proof.
  induction s as [|c s IH]; simpl; rewrite !orb_true_iff.
  - intros [H|H]; [left; eapply starts_with_app; exact H | discriminate].
  - intros [H|H]; [left; eapply starts_with_app; exact H | right; auto].
Qed.

Lemma kw_films_film (c : pystr) :
  str_in kw_films c = true -> str_in kw_film c = true.
Proof. apply (str_in_app kw_film [1099%N]). Qed.

Lemma split_go_nonempty (sep : pystr) (s : pystr) :
  forall skip cur, split_go sep skip cur s <> [].
Proof.
  induction s as [|c s IH]; intros skip cur; simpl; [discriminate|].
  destruct skip as [|k]; [|apply IH].
  destruct (starts_with sep (c :: s)); [discriminate | apply IH].
Qed.

(** [s.split(sep)[-1]] never raises: a split has at least one piece. *)
Lemma split_last (sep s : pystr) :
  exists piece, last (split sep s) = Some piece
                /\ index_last (split sep s) = mret piece.
Proof.
  unfold index_last. destruct (last (split sep s)) as [piece|] eqn:Hl.
  - exists piece. split; reflexivity.
  - apply last_None in Hl. exfalso. eapply split_go_nonempty. exact Hl.
Qed.

(** ** The classifier *)

Section Classifier.

Context `{R : PyRuntime}.

(** The classifier never raises. *)
Lemma is_film_page_total (response : Response) :
  exists b, outcome (is_film_page response) = inr b.
Proof.
  unfold is_film_page. rewrite mbind_select.
  destruct (negb (negb (infobox_tables response =? 0))); [eexists; reflexivity|].
  rewrite mbind_select.
  match goal with |- context [if ?c then _ else _] => destruct c end;
    [eexists; reflexivity|].
  rewrite mbind_select.
  match goal with |- context [if ?c then _ else _] => destruct c end;
    [eexists; reflexivity|].
  rewrite mbind_select.
  match goal with |- context [if ?c then _ else _] => destruct c end;
    [eexists; reflexivity|].
  rewrite mbind_select. eexists; reflexivity.
Qed.


(** C5. Hard gate: on a page where the infobox selector matches nothing the
    classifier answers negative, and the infobox selector is the only one it
    evaluated: the caption, lead-paragraph, first-label and category-link
    selectors are never run. *)
Theorem is_film_page_hard_gate (response : Response) :
  infobox_tables response = 0 ->
  outcome (is_film_page response) = inr false
  /\ trace (is_film_page response) = [SelInfobox].
Proof.
  intros Hnone. unfold is_film_page. rewrite Hnone. split; reflexivity.
Qed.


End Classifier.

(** ** The year pattern *)

Section YearPattern.

Context `{R : PyRuntime}.

Lemma re_search_year_cons (c : N) (s : pystr) :
  re_search_year (c :: s)
  = match four_digits (c :: s) with
    | Some m => Some m
    | None => re_search_year s
    end.
Proof. reflexivity. Qed.

Lemma four_digits_Some (s m : pystr) :
  four_digits s = Some m -> digit_run m /\ exists post, s = m ++ post.
Proof.
  unfold four_digits.
  destruct s as [|a [|b [|c [|d post]]]]; try discriminate.
  destruct (isdecimal a) eqn:Ha; [|discriminate].
  destruct (isdecimal b) eqn:Hb; [|discriminate].
  destruct (isdecimal c) eqn:Hc; [|discriminate].
  destruct (isdecimal d) eqn:Hd; [|discriminate].
  simpl. intros [= <-]. split.
  - split; [reflexivity | repeat constructor; assumption].
  - exists post. reflexivity.
Qed.

Lemma four_digits_prefix (run post : pystr) :
  digit_run run -> four_digits (run ++ post) = Some run.
Proof.
  intros [Hlen Hdec].
  destruct run as [|a [|b [|c [|d [|e run]]]]]; try discriminate Hlen.
  inversion Hdec as [|? ? Ha Hdec1]; subst.
  inversion Hdec1 as [|? ? Hb Hdec2]; subst.
  inversion Hdec2 as [|? ? Hc Hdec3]; subst.
  inversion Hdec3 as [|? ? Hd _]; subst.
  simpl. rewrite Ha, Hb, Hc, Hd. reflexivity.
Qed.

(** A match is the leftmost run of four decimal digits of the string. *)
Lemma re_search_year_Some (s m : pystr) :
  re_search_year s = Some m ->
  digit_run m
  /\ exists pre post,
       s = pre ++ m ++ post
       /\ forall pre' run' post',
            s = pre' ++ run' ++ post' -> digit_run run' ->
            length pre <= length pre'.
Proof.
  induction s as [|c s IH].
  - discriminate.
  - rewrite re_search_year_cons.
    destruct (four_digits (c :: s)) as [m'|] eqn:Hfour.
    + intros [= <-]. apply four_digits_Some in Hfour as [Hrun [post Hs]].
      split; [exact Hrun|]. exists [], post. split; [exact Hs|].
      intros; simpl; lia.
    + intros Hrest. destruct (IH Hrest) as [Hrun (pre & post & Hs & Hleft)].
      split; [exact Hrun|]. exists (c :: pre), post. split.
      * simpl. rewrite Hs. reflexivity.
      * intros pre' run' post' Hs' Hrun'.
        destruct pre' as [|c' pre'].
        -- simpl in Hs'. rewrite Hs', (four_digits_prefix _ _ Hrun') in Hfour.
           discriminate.
        -- simpl in Hs'. injection Hs' as _ Hs'.
           specialize (Hleft pre' run' post' Hs' Hrun'). simpl. lia.
Qed.

(** No match: the string holds no run of four decimal digits. *)
Lemma re_search_year_None (s : pystr) :
  re_search_year s = None -> ~ has_digit_run s.
Proof.
  induction s as [|c s IH].
  - intros _ (pre & run & post & Hs & [Hlen _]).
    symmetry in Hs. apply app_eq_nil in Hs as [_ Hs].
    apply app_eq_nil in Hs as [-> _]. discriminate.
  - rewrite re_search_year_cons.
    destruct (four_digits (c :: s)) as [m'|] eqn:Hfour; [discriminate|].
    intros Hrest (pre & run & post & Hs & Hrun).
    destruct pre as [|c' pre].
    + simpl in Hs. rewrite Hs, (four_digits_prefix _ _ Hrun) in Hfour.
      discriminate.
    + simpl in Hs. injection Hs as _ Hs.
      apply (IH Hrest). exists pre, run, post. split; assumption.
Qed.

Lemma re_search_year_nonempty (s m : pystr) :
  re_search_year s = Some m -> m <> [].
Proof.
  intros Hm. apply re_search_year_Some in Hm as [[Hlen _] _].
  destruct m; [discriminate | congruence].
Qed.

Lemma isdecimal_tabled (c : N) :
  tabled_char c = true -> isdecimal c = ascii_digit c.
Proof.
  unfold tabled_char. rewrite orb_true_iff, andb_true_iff.
  intros [Hascii | [Hlo Hhi]].
  - apply isdecimal_ascii. apply N.ltb_lt. exact Hascii.
  - apply N.leb_le in Hlo, Hhi.
    rewrite isdecimal_cyrillic by lia.
    symmetry. unfold ascii_digit. apply andb_false_iff. right.
    apply N.leb_gt. lia.
Qed.

(** On ASCII and Cyrillic text the pattern is decided by the ASCII digits. *)
Lemma re_search_year_tabled (s : pystr) :
  forallb tabled_char s = true ->
  re_search_year s = @re_search_year ref_runtime s.
Proof.
  induction s as [|c s IH]; [reflexivity|].
  intros Hall. rewrite !re_search_year_cons.
  assert (Hfour : four_digits (c :: s) = @four_digits ref_runtime (c :: s)).
  { unfold four_digits.
    destruct s as [|b [|c2 [|d post]]]; try reflexivity.
    simpl in Hall. rewrite !andb_true_iff in Hall.
    destruct Hall as (Hc & Hb & Hc2 & Hd & _).
    rewrite !isdecimal_tabled by assumption. reflexivity. }
  rewrite Hfour. simpl in Hall. apply andb_true_iff in Hall as [_ Hall].
  rewrite (IH Hall). reflexivity.
Qed.

End YearPattern.

(** ** The loop over the infobox rows *)

Section InfoboxRows.

Context `{R : PyRuntime}.

(** The [if]/[elif] chain of the loop body, by the field the label routes
    to. *)
Lemma process_row_eq (item : FilmItem) (row : Row) :
  process_row item row
  = match row_field row with
    | Some f =>
        if truthy (row_value row)
        then <[f := stored_value f (row_value row)]> item
        else item
    | None => item
    end.
Proof.
  unfold process_row, row_field.
  destruct (negb (truthy (row_label row))); [reflexivity|].
  destruct (str_in kw_genre _); [reflexivity|].
  destruct (str_in kw_director _); [reflexivity|].
  destruct (str_in kw_country _); [reflexivity|].
  destruct (str_in kw_year _); [|reflexivity].
  destruct (truthy (row_value row)); [|reflexivity].
  unfold stored_value, year_value. simpl.
  destruct (re_search_year (row_value row)); reflexivity.
Qed.

Lemma row_field_cases (row : Row) (f : string) :
  row_field row = Some f ->
  f = "genre" \/ f = "director" \/ f = "country" \/ f = "year".
Proof.
  unfold row_field.
  destruct (negb (truthy (row_label row))); [discriminate|].
  destruct (str_in kw_genre _); [intros [= <-]; auto|].
  destruct (str_in kw_director _); [intros [= <-]; auto|].
  destruct (str_in kw_country _); [intros [= <-]; auto|].
  destruct (str_in kw_year _); [intros [= <-]; auto | discriminate].
Qed.

(** A row with an empty joined value changes nothing. *)
Lemma process_row_empty_value (item : FilmItem) (row : Row) :
  row_value row = [] -> process_row item row = item.
Proof.
  intros Hv. rewrite process_row_eq, Hv.
  destruct (row_field row); reflexivity.
Qed.

(** A row that does not write field [f] leaves [f] as it was. *)
Lemma process_row_other (item : FilmItem) (row : Row) (f : string) :
  (row_field row = Some f -> row_value row = []) ->
  process_row item row !! f = item !! f.
Proof.
  intros Hother. rewrite process_row_eq.
  destruct (row_field row) as [g|] eqn:Hg; [|reflexivity].
  destruct (truthy (row_value row)) eqn:Hv; [|reflexivity].
  apply lookup_insert_ne. intros ->.
  apply truthy_true in Hv. apply Hv, Hother. reflexivity.
Qed.

Lemma stored_value_nonempty (f : string) (td : pystr) :
  td <> [] -> stored_value f td <> [].
Proof.
  intros Htd. unfold stored_value, year_value.
  destruct (decide (f = "year")); [|exact Htd].
  destruct (re_search_year td) as [m|] eqn:Hm; [|exact Htd].
  eapply re_search_year_nonempty. exact Hm.
Qed.

(** C9. A row whose label text joins and trims to the empty string is
    skipped: the item is returned unchanged, whatever the value cells
    hold. *)
Theorem empty_label_row_skipped (item : FilmItem) (row : Row) :
  row_label row = [] -> process_row item row = item.
Proof.
  intros Hth. unfold process_row. rewrite Hth. reflexivity.
Qed.

(** C3. Monotonic upgrade: when the rows processed so far have left value
    [v] in field [f] -- in particular a value other than the sentinel --
    a further row whose joined value is empty leaves [f] at [v]; the field
    is neither reset to the sentinel nor blanked (the row in fact changes
    no field at all). *)
Theorem empty_value_keeps_field
    (item0 : FilmItem) (before : list Row) (row : Row)
    (f : string) (v : pystr) :
  fold_left process_row before item0 !! f = Some v ->
  v <> sentinel ->
  row_value row = [] ->
  fold_left process_row (before ++ [row]) item0 !! f = Some v
  /\ fold_left process_row (before ++ [row]) item0 !! f <> Some sentinel
  /\ fold_left process_row (before ++ [row]) item0
     = fold_left process_row before item0.
Proof.
  intros Hf Hv Hempty. rewrite fold_left_app. simpl.
  rewrite (process_row_empty_value _ _ Hempty).
  split; [exact Hf|]. split; [|reflexivity].
  rewrite Hf. intros [= Heq]. exact (Hv Heq).
Qed.

Lemma fold_rows_other (rows : list Row) (item : FilmItem) (f : string) :
  Forall (fun r => row_field r = Some f -> row_value r = []) rows ->
  fold_left process_row rows item !! f = item !! f.
Proof.
  intros Hrows. revert item.
  induction Hrows as [|r rows Hr _ IH]; intros item; simpl; [reflexivity|].
  rewrite IH. apply process_row_other. exact Hr.
Qed.

(** C10. Last non-empty match wins: when row [row] routes to field [f]
    with a non-empty joined value and no row after it does, the field ends
    as the value stored for [row] (its joined value; for the year, the
    joined value after year normalization), whatever the rows before it
    wrote. *)
Theorem last_nonempty_match_wins
    (item0 : FilmItem) (before after : list Row) (row : Row) (f : string) :
  row_field row = Some f ->
  row_value row <> [] ->
  Forall (fun r => row_field r = Some f -> row_value r = []) after ->
  fold_left process_row (before ++ row :: after) item0 !! f
  = Some (stored_value f (row_value row)).
Proof.
  intros Hf Hv Hafter. rewrite fold_left_app. simpl.
  rewrite (fold_rows_other _ _ _ Hafter), process_row_eq, Hf.
  apply truthy_true in Hv. rewrite Hv. apply lookup_insert_eq.
Qed.

Lemma row_field_year_label (value : string) :
  row_field (Samples.row "Год" value) = Some "year".
Proof.
  unfold row_field.
  replace (row_label (Samples.row "Год" value)) with [1043; 1086; 1076]%N
    by (vm_compute; reflexivity).
  rewrite str_lower_plain
    by (repeat constructor; unfold plain_char; lia).
  reflexivity.
Qed.

(** C6. Year normalization: a row routed to the year field with a non-empty
    joined value stores the leftmost run of four decimal digits of that
    value when it contains such a run, and the joined (trimmed) value itself
    otherwise.  A row labelled "Год" with value "2015 год" gives year
    "2015"; with value "нет данных" it gives "нет данных". *)
Theorem year_normalization (item : FilmItem) :
  (forall row,
      row_field row = Some "year" ->
      row_value row <> [] ->
      (has_digit_run (row_value row) ->
       exists pre run post,
         row_value row = pre ++ run ++ post
         /\ digit_run run
         /\ (forall pre' run' post',
                row_value row = pre' ++ run' ++ post' -> digit_run run' ->
                length pre <= length pre')
         /\ process_row item row !! "year" = Some run)
      /\ (~ has_digit_run (row_value row) ->
          process_row item row !! "year" = Some (row_value row)))
  /\ process_row item (Samples.row "Год" "2015 год") !! "year"
     = Some (py "2015")
  /\ process_row item (Samples.row "Год" "нет данных") !! "year"
     = Some (py "нет данных").
Proof.
  split; [|split].
  - intros row Hf Hv. apply truthy_true in Hv.
    rewrite process_row_eq, Hf, Hv, lookup_insert_eq.
    unfold stored_value, year_value. simpl.
    destruct (re_search_year (row_value row)) as [m|] eqn:Hm.
    + split.
      * intros _.
        apply re_search_year_Some in Hm as [Hrun (pre & post & Hs & Hleft)].
        exists pre, m, post. auto.
      * intros Hnone. exfalso. apply Hnone.
        apply re_search_year_Some in Hm as [Hrun (pre & post & Hs & _)].
        exists pre, m, post. auto.
    + split; [|reflexivity].
      intros Hrun. apply re_search_year_None in Hm. contradiction.
  - rewrite process_row_eq, row_field_year_label.
    replace (row_value (Samples.row "Год" "2015 год"))
      with [50; 48; 49; 53; 32; 1075; 1086; 1076]%N by (vm_compute; reflexivity).
    simpl truthy. cbv iota. rewrite lookup_insert_eq.
    unfold stored_value, year_value. simpl decide. cbv iota.
    rewrite re_search_year_tabled by reflexivity. reflexivity.
  - rewrite process_row_eq, row_field_year_label.
    replace (row_value (Samples.row "Год" "нет данных"))
      with (py "нет данных") by (vm_compute; reflexivity).
    simpl truthy. cbv iota. rewrite lookup_insert_eq.
    unfold stored_value, year_value. simpl decide. cbv iota.
    rewrite re_search_year_tabled by reflexivity. reflexivity.
Qed.

End InfoboxRows.

(** ** Field extraction *)

Section Extraction.

Context `{R : PyRuntime}.

Lemma sentinel_nonempty : sentinel <> [].
Proof. discriminate. Qed.

Lemma initial_item_complete (title : pystr) :
  title <> [] -> complete_record (initial_item title).
Proof.
  intros Ht. unfold initial_item. split.
  - rewrite !dom_insert_L, dom_empty_L. unfold five_keys. set_solver.
  - repeat (apply map_Forall_insert_2;
            [first [exact Ht | exact sentinel_nonempty]|]).
    apply map_Forall_empty.
Qed.

Lemma insert_complete (item : FilmItem) (f : string) (v : pystr) :
  f ∈ five_keys -> v <> [] ->
  complete_record item -> complete_record (<[f := v]> item).
Proof.
  intros Hf Hv [Hdom Hall]. split.
  - rewrite dom_insert_L, Hdom. apply subseteq_union_1_L.
    apply singleton_subseteq_l. exact Hf.
  - apply map_Forall_insert_2; assumption.
Qed.

Lemma row_field_key (row : Row) (f : string) :
  row_field row = Some f -> f ∈ five_keys /\ f <> "title".
Proof.
  intros Hf. apply row_field_cases in Hf.
  unfold five_keys.
  destruct Hf as [-> | [-> | [-> | ->]]]; (split; [set_solver | discriminate]).
Qed.

Lemma process_row_complete (item : FilmItem) (row : Row) :
  complete_record item -> complete_record (process_row item row).
Proof.
  intros Hitem. rewrite process_row_eq.
  destruct (row_field row) as [f|] eqn:Hf; [|exact Hitem].
  destruct (truthy (row_value row)) eqn:Hv; [|exact Hitem].
  apply insert_complete; [apply (row_field_key _ _ Hf) | | exact Hitem].
  apply stored_value_nonempty, truthy_true, Hv.
Qed.

Lemma fold_rows_complete (rows : list Row) (item : FilmItem) :
  complete_record item -> complete_record (fold_left process_row rows item).
Proof.
  revert item. induction rows as [|r rows IH]; intros item Hitem; simpl.
  - exact Hitem.
  - apply IH, process_row_complete, Hitem.
Qed.

Lemma fold_rows_title (rows : list Row) (item : FilmItem) :
  fold_left process_row rows item !! "title" = item !! "title".
Proof.
  apply fold_rows_other. apply Forall_forall. intros r _ Hf.
  apply row_field_key in Hf as [_ Hne]. congruence.
Qed.

(** Lines 97-141 never raise and build a complete record that carries the
    title they were given. *)
Lemma extract_item_complete (title : pystr) (response : Response) :
  title <> [] ->
  exists item,
    outcome (extract_item title response) = inr item
    /\ complete_record item
    /\ item !! "title" = Some title.
Proof.
  intros Ht. unfold extract_item. rewrite mbind_select.
  set (item := fold_left process_row (infobox_rows response) (initial_item title)).
  assert (Hc : complete_record item)
    by apply fold_rows_complete, initial_item_complete, Ht.
  assert (Htitle : item !! "title" = Some title).
  { subst item. rewrite fold_rows_title. apply lookup_insert_eq. }
  assert (Hyear : is_Some (item !! "year")).
  { apply elem_of_dom. destruct Hc as [-> _]. unfold five_keys. set_solver. }
  destruct Hyear as [year Hyear]. unfold getitem. rewrite Hyear, mbind_mret.
  destruct (decide (year = sentinel)); [|exists item; auto].
  rewrite mbind_select.
  destruct (re_search_year _) as [m|] eqn:Hm; [|exists item; auto].
  exists (<["year" := m]> item). split; [reflexivity|]. split.
  - apply insert_complete; [unfold five_keys; set_solver | | exact Hc].
    eapply re_search_year_nonempty. exact Hm.
  - rewrite lookup_insert_ne by discriminate. exact Htitle.
Qed.

Lemma article_title_eq (response : Response) :
  outcome (article_title response)
  = inr (if truthy (heading_text response) then heading_text response
         else if truthy (url_title (wiki_tail (url response)))
              then url_title (wiki_tail (url response))
              else sentinel).
Proof.
  destruct (split_last wiki_sep (url response)) as (tail & Hlast & Hidx).
  unfold article_title, wiki_tail, url_title. rewrite mbind_select, Hlast.
  fold (heading_text response).
  destruct (truthy (heading_text response)) eqn:Hh; simpl negb; cbv iota.
  - rewrite mbind_mret. rewrite Hh. reflexivity.
  - rewrite Hidx, !mbind_mret. unfold outcome, mret. simpl.
    destruct (truthy (match unquote _ with Some t => t | None => _ end));
      reflexivity.
Qed.

Lemma article_title_nonempty (response : Response) (title : pystr) :
  outcome (article_title response) = inr title -> title <> [].
Proof.
  rewrite article_title_eq. intros [= <-].
  destruct (truthy (heading_text response)) eqn:Hh; [apply truthy_true, Hh|].
  destruct (truthy (url_title _)) eqn:Hd;
    [apply truthy_true, Hd | exact sentinel_nonempty].
Qed.

(** C2. Totality of field extraction: on every response [parse_article]
    returns without raising; it yields one record when the classifier
    accepts the page and none otherwise, and a record it yields has exactly
    the keys title, genre, director, country and year, each bound to a
    non-empty string. *)
Theorem parse_article_total (response : Response) :
  exists items,
    outcome (parse_article response) = inr items
    /\ Forall complete_record items
    /\ (outcome (is_film_page response) = inr true -> length items = 1)
    /\ (outcome (is_film_page response) = inr false -> items = []).
Proof.
  pose proof (article_title_eq response) as Htitle.
  destruct (is_film_page_total response) as [film Hfilm].
  destruct (extract_item_complete _ response
              (article_title_nonempty response _ Htitle))
    as (item & Hitem & Hc & _).
  unfold parse_article.
  rewrite (outcome_mbind _ _ _ Htitle), (outcome_mbind _ _ _ Hfilm), Hfilm.
  destruct film; simpl negb; cbv iota.
  - exists [item]. rewrite (outcome_mbind _ _ _ Hitem).
    repeat split; [constructor; [exact Hc | constructor] | discriminate].
  - exists []. repeat split; [constructor | discriminate].
Qed.

(** C1 (amended). The title of every record is non-empty.  It is the
    trimmed, space-joined heading text when that is non-empty; otherwise the
    text after the last "/wiki/" of the URL, with "_" replaced by a space and
    percent-decoded, when that is non-empty; and the sentinel when both are
    empty. *)
Theorem article_title_resolution (response : Response) :
  exists title,
    outcome (article_title response) = inr title
    /\ title <> []
    /\ (heading_text response <> [] -> title = heading_text response)
    /\ (heading_text response = [] ->
        url_title (wiki_tail (url response)) <> [] ->
        title = url_title (wiki_tail (url response)))
    /\ (heading_text response = [] ->
        url_title (wiki_tail (url response)) = [] ->
        title = sentinel)
    /\ (forall item, outcome (parse_article response) = inr [item] ->
                     item !! "title" = Some title).
Proof.
  pose proof (article_title_eq response) as Htitle.
  pose proof (article_title_nonempty response _ Htitle) as Hne.
  eexists. split; [exact Htitle|]. split; [exact Hne|].
  split; [|split; [|split]].
  - intros Hh. apply truthy_true in Hh. rewrite Hh. reflexivity.
  - intros Hh Hu. apply truthy_false in Hh. apply truthy_true in Hu.
    rewrite Hh, Hu. reflexivity.
  - intros Hh Hu. apply truthy_false in Hh. apply truthy_false in Hu.
    rewrite Hh, Hu. reflexivity.
  - destruct (is_film_page_total response) as [film Hfilm].
    destruct (extract_item_complete _ response Hne) as (item' & Hitem & _ & Hkeep).
    unfold parse_article.
    rewrite (outcome_mbind _ _ _ Htitle), (outcome_mbind _ _ _ Hfilm).
    destruct film; simpl negb; cbv iota.
    + rewrite (outcome_mbind _ _ _ Hitem). intros item [= <-]. exact Hkeep.
    + discriminate.
Qed.

End Extraction.

(** ** The category callback *)

Section Category.

Context `{F : Framework}.

Lemma gbind_gselect {A B} (sel : selector) (v : A) (f : A -> G B) :
  gbind (gselect sel v) f = (sel :: (f v).1, (f v).2).
Proof.
  unfold gbind, gselect. destruct (f v) as [w [ys r]]. reflexivity.
Qed.

Lemma gbind_gret {A B} (a : A) (f : A -> G B) : gbind (gret a) f = f a.
Proof. unfold gbind, gret. destruct (f a) as [w [ys r]]. reflexivity. Qed.

Lemma gbind_lift_mret {A B} (a : A) (f : A -> G B) :
  gbind (lift (mret a)) f = f a.
Proof. unfold lift, mret. simpl. apply gbind_gret. Qed.

(** A loop that yields one request per href: it evaluates no selector,
    yields the requests up to the first href that cannot be turned into one,
    and ends with [ValueError] exactly when there is such an href. *)
Lemma subcategory_requests_eq (response : Response) (hrefs : list pystr) :
  subcategory_requests response hrefs
  = ( [],
      ( requests_until_error response cb_parse hrefs,
        if all_requestable response hrefs then inr tt else inl ValueError ) ).
Proof.
  induction hrefs as [|href rest IH]; [reflexivity|].
  simpl. unfold yield_request.
  destruct (request_url response href) as [u|]; simpl; [|reflexivity].
  rewrite IH. reflexivity.
Qed.

Lemma page_requests_eq (response : Response) (links : list pystr) :
  page_requests response links
  = ( [],
      ( requests_until_error response cb_parse_article
          (List.filter kept_link links),
        if all_requestable response (List.filter kept_link links)
        then inr tt else inl ValueError ) ).
Proof.
  induction links as [|href links IH]; [reflexivity|].
  cbn [page_requests List.filter].
  destruct (split_last wiki_sep href) as (piece & Hlast & Hidx).
  assert (Hkept : kept_link href = negb (str_in colon piece))
    by (unfold kept_link, wiki_tail; rewrite Hlast; reflexivity).
  rewrite Hkept, Hidx, gbind_lift_mret.
  destruct (str_in colon piece); simpl negb; cbv iota; [exact IH|].
  unfold yield_request. cbn [requests_until_error all_requestable].
  destruct (request_url response href) as [u|]; [|reflexivity].
  rewrite IH. reflexivity.
Qed.

Lemma next_page_requests_eq (response : Response) :
  next_page_requests response
  = ( SelNextText ::
        (if truthy_opt (head (next_text_hrefs response)) then []
         else [SelNextRel]),
      match chosen_next response with
      | Some href =>
          if truthy href then
            match follow_url response href with
            | Some u => ([Build_Request u cb_parse], inr tt)
            | None => ([], inl ValueError)
            end
          else ([], inr tt)
      | None => ([], inr tt)
      end ).
Proof.
  unfold next_page_requests, chosen_next. rewrite gbind_gselect.
  destruct (truthy_opt (head (next_text_hrefs response))) eqn:Htext;
    simpl negb; cbv iota.
  - rewrite gbind_gret.
    destruct (head (next_text_hrefs response)) as [href|]; [|reflexivity].
    destruct (truthy href); [|reflexivity].
    destruct (follow_url response href); reflexivity.
  - rewrite gbind_gselect.
    destruct (head (next_rel_hrefs response)) as [href|]; [|reflexivity].
    destruct (truthy href); [|reflexivity].
    destruct (follow_url response href); reflexivity.
Qed.

Lemma link_requests_eq (response : Response) :
  link_requests response
  = ( SelSubcategories ::
        (if all_requestable response (subcategory_hrefs response)
         then [SelPages] else []),
      ( requests_until_error response cb_parse (subcategory_hrefs response)
        ++ (if all_requestable response (subcategory_hrefs response)
            then requests_until_error response cb_parse_article
                   (List.filter kept_link (page_hrefs response))
            else []),
        if all_requestable response (subcategory_hrefs response)
           && all_requestable response
                (List.filter kept_link (page_hrefs response))
        then inr tt else inl ValueError ) ).
Proof.
  unfold link_requests. rewrite gbind_gselect, subcategory_requests_eq.
  destruct (all_requestable response (subcategory_hrefs response)); simpl.
  - rewrite page_requests_eq. simpl. reflexivity.
  - rewrite app_nil_r. reflexivity.
Qed.

(** [parse] is its two loops followed, when they end normally, by the
    pagination step. *)
Lemma parse_eq (response : Response) :
  parse response
  = gbind (link_requests response) (fun _ => next_page_requests response).
Proof.
  unfold parse, link_requests, gbind, gselect.
  destruct (subcategory_requests response (subcategory_hrefs response))
    as [w1 [ys1 [e1|[]]]]; [reflexivity|].
  destruct (page_requests response (page_hrefs response))
    as [w2 [ys2 [e2|[]]]]; [reflexivity|].
  destruct (next_page_requests response) as [w3 [ys3 r3]].
  simpl. rewrite <- !app_assoc. reflexivity.
Qed.




End Category.

(** ** The frontier *)

Section FrontierFacts.

Context `{F : Framework}.

Lemma empty_frontier_ok : frontier_ok empty_frontier.
Proof.
  split; [constructor|]. intros u. simpl.
  rewrite elem_of_empty, elem_of_nil. reflexivity.
Qed.

Lemma enqueue_ok (f : Frontier) (r : Request) :
  frontier_ok f -> frontier_ok (enqueue f r).
Proof.
  intros [Hnodup Hvisited]. unfold enqueue.
  destruct (decide (req_url r ∈ visited f)) as [Hin|Hnew]; [split; assumption|].
  split; simpl; rewrite map_app; simpl.
  - apply NoDup_app. split; [exact Hnodup|]. split.
    + intros u Hu. rewrite list_elem_of_singleton. intros ->.
      apply Hnew, Hvisited, Hu.
    + apply NoDup_singleton.
  - intros u. rewrite elem_of_union, elem_of_singleton, elem_of_app,
      list_elem_of_singleton, Hvisited. tauto.
Qed.

Lemma enqueue_all_ok (rs : list Request) (f : Frontier) :
  frontier_ok f -> frontier_ok (enqueue_all f rs).
Proof.
  unfold enqueue_all. revert f.
  induction rs as [|r rs IH]; intros f Hf; simpl; [exact Hf|].
  apply IH, enqueue_ok, Hf.
Qed.

Lemma crawl_ok (seeds : list Request) (pages : list Response) :
  frontier_ok (crawl seeds pages).
Proof.
  unfold crawl.
  assert (Hseeds : frontier_ok (enqueue_all empty_frontier seeds))
    by apply enqueue_all_ok, empty_frontier_ok.
  revert Hseeds. generalize (enqueue_all empty_frontier seeds).
  induction pages as [|page pages IH]; intros f Hf; simpl; [exact Hf|].
  apply IH. unfold crawl_category. apply enqueue_all_ok, Hf.
Qed.

Lemma enqueue_visited (f : Frontier) (r : Request) :
  visited f ⊆ visited (enqueue f r) /\ req_url r ∈ visited (enqueue f r).
Proof.
  unfold enqueue. destruct (decide (req_url r ∈ visited f)) as [Hin|Hnew]; simpl.
  - split; [reflexivity | exact Hin].
  - split; [apply union_subseteq_r | apply elem_of_union_l, elem_of_singleton].
    reflexivity.
Qed.

Lemma enqueue_twice (f : Frontier) (r : Request) :
  enqueue (enqueue f r) r = enqueue f r.
Proof.
  unfold enqueue at 1.
  rewrite decide_True by apply enqueue_visited. reflexivity.
Qed.

Lemma enqueue_all_visited (rs : list Request) (f : Frontier) :
  visited f ⊆ visited (enqueue_all f rs).
Proof.
  unfold enqueue_all. revert f.
  induction rs as [|r rs IH]; intros f; simpl; [reflexivity|].
  etransitivity; [apply (enqueue_visited f r) | apply IH].
Qed.

Lemma crawl_pages_visited (pages : list Response) (f : Frontier) :
  visited f ⊆ visited (fold_left crawl_category pages f).
Proof.
  revert f. induction pages as [|page pages IH]; intros f; simpl; [reflexivity|].
  etransitivity; [|apply IH]. apply enqueue_all_visited.
Qed.

(** C8. Frontier idempotence.  Over a whole crawl -- the seed requests, then
    the requests [parse] yields for each category page fetched -- no URL is
    enqueued for fetching twice, and the visited set holds exactly the URLs
    enqueued.  Submitting a request enqueues its URL exactly once however
    often it is submitted: a second submission changes nothing.  The visited
    set only grows, with each submission and with each further page
    processed. *)
Theorem frontier_enqueues_once (seeds : list Request) (pages : list Response) :
  NoDup (map req_url (fetched (crawl seeds pages)))
  /\ (forall u, u ∈ visited (crawl seeds pages)
                <-> u ∈ map req_url (fetched (crawl seeds pages)))
  /\ (forall r,
        enqueue (enqueue (crawl seeds pages) r) r = enqueue (crawl seeds pages) r
        /\ req_url r ∈ map req_url (fetched (enqueue (crawl seeds pages) r))
        /\ NoDup (map req_url (fetched (enqueue (crawl seeds pages) r)))
        /\ visited (crawl seeds pages) ⊆ visited (enqueue (crawl seeds pages) r))
  /\ (forall more,
        visited (crawl seeds pages) ⊆ visited (crawl seeds (pages ++ more))).
Proof.
  pose proof (crawl_ok seeds pages) as Hok.
  split; [apply Hok|]. split; [apply Hok|]. split.
  - intros r. pose proof (enqueue_ok _ r Hok) as [Hnodup Hvisited].
    split; [apply enqueue_twice|]. split; [|split].
    + apply Hvisited, enqueue_visited.
    + exact Hnodup.
    + apply enqueue_visited.
  - intros more. unfold crawl. rewrite fold_left_app.
    apply crawl_pages_visited.
Qed.

End FrontierFacts.

(** ** The properties on concrete pages *)

(** The title can be the sentinel: the record of [Samples.untitled_film] (empty
    heading, nothing after "/wiki/" in the URL) has the sentinel as title. *)
Lemma untitled_film_title_is_sentinel :
  exists item,
    outcome (@parse_article ref_runtime Samples.untitled_film) = inr [item]
    /\ item !! "title" = Some sentinel.
Proof.
  exists (<["genre" := py "драма"]> (<["year" := py "2015"]>
            (initial_item sentinel))).
  split; vm_compute; reflexivity.
Qed.


(** The subcategory listed twice on [Samples.twice_listed] is enqueued
    once. *)
Example crawl_twice_listed :
  fetched (@crawl ref_framework [] [Samples.twice_listed])
  = [ Build_Request (py "https://ru.wikipedia.org/wiki/Category:Soviet_films") cb_parse;
      Build_Request (py "https://ru.wikipedia.org/wiki/Solaris_(1972)") cb_parse_article;
      Build_Request (py "https://ru.wikipedia.org/w/index.php?from=B") cb_parse ].
Proof. vm_compute. reflexivity. Qed.


(** The hard gate on a page without an infobox. *)
Lemma is_film_page_hard_gate_witness :
  infobox_tables (Samples.empty_page (py "https://ru.wikipedia.org/wiki/A")) = 0
  /\ outcome (@is_film_page ref_runtime
                (Samples.empty_page (py "https://ru.wikipedia.org/wiki/A")))
     = inr false
  /\ trace (@is_film_page ref_runtime
              (Samples.empty_page (py "https://ru.wikipedia.org/wiki/A")))
     = [SelInfobox].
Proof.
  split; [reflexivity|].
  apply (@is_film_page_hard_gate ref_runtime). reflexivity.
Defined.


(** A row with a blank label and a value is skipped. *)
Lemma empty_label_row_skipped_witness :
  row_label {| th_texts := [py "  "]; td_texts := [py "драма"] |} = []
  /\ @process_row ref_runtime (initial_item (py "Солярис"))
       {| th_texts := [py "  "]; td_texts := [py "драма"] |}
     = initial_item (py "Солярис").
Proof.
  split; [reflexivity|].
  apply (@empty_label_row_skipped ref_runtime). reflexivity.
Defined.

(** A genre row with a blank value after a genre row with a value. *)
Lemma empty_value_keeps_field_witness :
  row_value (Samples.row "Жанр" " ") = []
  /\ fold_left (@process_row ref_runtime)
       ([Samples.row "Жанр" "драма"] ++ [Samples.row "Жанр" " "])
       (initial_item (py "Солярис")) !! "genre"
     = Some (py "драма").
Proof.
  split; [reflexivity|].
  apply (@empty_value_keeps_field ref_runtime
           (initial_item (py "Солярис")) [Samples.row "Жанр" "драма"]
           (Samples.row "Жанр" " ") "genre" (py "драма")).
  - vm_compute. reflexivity.
  - vm_compute. discriminate.
  - reflexivity.
Defined.

(** Two genre rows with values, then a blank genre row and a year row. *)
Lemma last_nonempty_match_wins_witness :
  fold_left (@process_row ref_runtime)
    ([Samples.row "Жанр" "драма"]
       ++ Samples.row "Жанр" "комедия"
       :: [Samples.row "Жанр" " "; Samples.row "Год" "1972"])
    (initial_item (py "Солярис")) !! "genre"
  = Some (py "комедия").
Proof.
  apply (@last_nonempty_match_wins ref_runtime
           (initial_item (py "Солярис")) [Samples.row "Жанр" "драма"]
           [Samples.row "Жанр" " "; Samples.row "Год" "1972"]
           (Samples.row "Жанр" "комедия") "genre").
  - vm_compute. reflexivity.
  - vm_compute. discriminate.
  - repeat constructor; vm_compute; congruence.
Defined.

(** A year row whose value holds a four-digit run after other text. *)
Lemma year_normalization_witness :
  @row_field ref_runtime (Samples.row "Год" "СССР, 1972 год") = Some "year"
  /\ row_value (Samples.row "Год" "СССР, 1972 год") <> []
  /\ exists pre run post,
       row_value (Samples.row "Год" "СССР, 1972 год") = pre ++ run ++ post
       /\ @digit_run ref_runtime run
       /\ (forall pre' run' post',
              row_value (Samples.row "Год" "СССР, 1972 год")
              = pre' ++ run' ++ post' ->
              @digit_run ref_runtime run' ->
              length pre <= length pre')
       /\ @process_row ref_runtime (initial_item (py "Солярис"))
            (Samples.row "Год" "СССР, 1972 год") !! "year"
          = Some run.
Proof.
  split; [vm_compute; reflexivity|]. split; [vm_compute; discriminate|].
  apply (proj1 (@year_normalization ref_runtime (initial_item (py "Солярис")))
               (Samples.row "Год" "СССР, 1972 год")).
  - vm_compute. reflexivity.
  - vm_compute. discriminate.
  - exists (py "СССР, "), (py "1972"), (py " год").
    split; [reflexivity|]. split; [reflexivity | repeat constructor].
Defined.

(** ** More on the string primitives *)

Section StringPrimitives.

Lemma starts_with_iff (p s : pystr) :
  starts_with p s = true <-> exists post, s = p ++ post.
Proof.
  revert s. induction p as [|a p IH]; intros s; simpl.
  - split; [intros _; exists s; reflexivity | reflexivity].
  - destruct s as [|b s].
    + split; [discriminate | intros [post Hs]; discriminate].
    + rewrite andb_true_iff, N.eqb_eq, IH. split.
      * intros [-> [post ->]]. exists post. reflexivity.
      * intros [post [= -> ->]]. split; [reflexivity | exists post; reflexivity].
Qed.

(** X1. The test [needle in hay] is substring containment: it holds exactly
    when [hay] is some text, then [needle], then some text. *)
Theorem str_in_substring (needle hay : pystr) :
  str_in needle hay = true <-> exists pre post, hay = pre ++ needle ++ post.
Proof.
  induction hay as [|c hay IH]; simpl; rewrite orb_true_iff, starts_with_iff.
  - split.
    + intros [[post Hs] | Hf]; [|discriminate]. exists [], post. exact Hs.
    + intros (pre & post & Hs). left.
      destruct pre; [exists post; exact Hs | discriminate].
  - rewrite IH. split.
    + intros [[post Hs] | (pre & post & ->)].
      * exists [], post. exact Hs.
      * exists (c :: pre), post. reflexivity.
    + intros (pre & post & Hs). destruct pre as [|c' pre].
      * left. exists post. exact Hs.
      * right. injection Hs as _ ->. exists pre, post. reflexivity.
Qed.

Lemma lstrip_split (s : pystr) :
  exists pre, s = pre ++ lstrip s /\ forallb isspace pre = true.
Proof.
  induction s as [|c s (pre & Hs & Hpre)]; simpl.
  - exists []. split; reflexivity.
  - destruct (isspace c) eqn:Hc.
    + exists (c :: pre). simpl. rewrite Hc, Hpre. split; [congruence | reflexivity].
    + exists []. split; reflexivity.
Qed.

Lemma lstrip_head (s : pystr) (c : N) :
  head (lstrip s) = Some c -> isspace c = false.
Proof.
  induction s as [|a s IH]; simpl; [discriminate|].
  destruct (isspace a) eqn:Ha; [exact IH|].
  simpl. intros [= <-]. exact Ha.
Qed.

Lemma lstrip_fixed (s : pystr) :
  (forall c, head s = Some c -> isspace c = false) -> lstrip s = s.
Proof.
  destruct s as [|a s]; simpl; [reflexivity|].
  intros Hhead. rewrite (Hhead a eq_refl). reflexivity.
Qed.

Lemma rstrip_split (s : pystr) :
  exists post, s = rstrip s ++ post /\ forallb isspace post = true.
Proof.
  unfold rstrip. destruct (lstrip_split (reverse s)) as (pre & Hs & Hpre).
  exists (reverse pre). split.
  - rewrite <- reverse_app, <- Hs, reverse_involutive. reflexivity.
  - rewrite forallb_forall in *. intros c Hc. apply Hpre.
    apply list_elem_of_In, elem_of_reverse, list_elem_of_In. exact Hc.
Qed.

Lemma rstrip_last (s : pystr) (c : N) :
  last (rstrip s) = Some c -> isspace c = false.
Proof. unfold rstrip. rewrite last_reverse. apply lstrip_head. Qed.

Lemma rstrip_fixed (s : pystr) :
  (forall c, last s = Some c -> isspace c = false) -> rstrip s = s.
Proof.
  intros Hlast. unfold rstrip. rewrite lstrip_fixed, reverse_involutive; [reflexivity|].
  intros c. rewrite head_reverse. apply Hlast.
Qed.

Lemma strip_head (s : pystr) (c : N) :
  head (strip s) = Some c -> isspace c = false.
Proof.
  unfold strip. intros Hc. destruct (rstrip_split (lstrip s)) as (post & Hs & _).
  apply (lstrip_head s). rewrite Hs, head_app, Hc. reflexivity.
Qed.

Lemma strip_last (s : pystr) (c : N) :
  last (strip s) = Some c -> isspace c = false.
Proof. apply rstrip_last. Qed.

Lemma strip_fixed (s : pystr) :
  (forall c, head s = Some c -> isspace c = false) ->
  (forall c, last s = Some c -> isspace c = false) ->
  strip s = s.
Proof.
  intros Hhead Hlast. unfold strip.
  rewrite (lstrip_fixed _ Hhead). apply rstrip_fixed, Hlast.
Qed.

(** X2. [s.strip()] removes whitespace at both ends and nothing else: [s] is
    a run of whitespace, then [strip s], then a run of whitespace; [strip s]
    neither starts nor ends with whitespace; and stripping again changes
    nothing. *)
Theorem strip_spec (s : pystr) :
  (exists pre post,
      s = pre ++ strip s ++ post
      /\ forallb isspace pre = true /\ forallb isspace post = true)
  /\ (forall c, head (strip s) = Some c -> isspace c = false)
  /\ (forall c, last (strip s) = Some c -> isspace c = false)
  /\ strip (strip s) = strip s.
Proof.
  split; [|split; [|split]].
  - destruct (lstrip_split s) as (pre & Hs & Hpre).
    destruct (rstrip_split (lstrip s)) as (post & Hl & Hpost).
    exists pre, post. unfold strip. rewrite <- Hl. auto.
  - apply strip_head.
  - apply strip_last.
  - apply strip_fixed; [apply strip_head | apply strip_last].
Qed.

Lemma strip_nil_iff (s : pystr) : strip s = [] <-> forallb isspace s = true.
Proof.
  split.
  - intros Hs. destruct (lstrip_split s) as (pre & Hpre & Hsp).
    destruct (rstrip_split (lstrip s)) as (post & Hl & Hpost).
    unfold strip in Hs. rewrite Hs in Hl. simpl in Hl.
    rewrite Hpre, Hl, forallb_app, Hsp, Hpost. reflexivity.
  - intros Hall. destruct (strip s) as [|c t] eqn:Hs; [reflexivity|].
    exfalso. pose proof (strip_head s c) as Hc. rewrite Hs in Hc.
    specialize (Hc eq_refl).
    destruct (lstrip_split s) as (pre & Hpre & _).
    destruct (rstrip_split (lstrip s)) as (post & Hl & _).
    unfold strip in Hs. rewrite Hs in Hl. rewrite Hpre, Hl in Hall.
    rewrite !forallb_app in Hall. simpl in Hall. rewrite Hc in Hall.
    rewrite andb_false_r in Hall. simpl in Hall. discriminate.
Qed.

Lemma join_cons (sep p : pystr) (rest : list pystr) :
  rest <> [] -> join sep (p :: rest) = p ++ sep ++ join sep rest.
Proof. destruct rest; [congruence | reflexivity]. Qed.

Lemma split_go_join (sep : pystr) (s : pystr) :
  sep <> [] ->
  forall skip cur, join sep (split_go sep skip cur s) = cur ++ drop skip s.
Proof.
  intros Hsep. induction s as [|c s IH]; intros skip cur; simpl.
  - rewrite drop_nil, app_nil_r. reflexivity.
  - destruct skip as [|k]; [|rewrite IH; reflexivity].
    destruct (starts_with sep (c :: s)) eqn:Hstart.
    + rewrite join_cons by apply split_go_nonempty.
      rewrite IH. simpl. apply starts_with_iff in Hstart as [post Hs].
      destruct sep as [|a sep]; [congruence|].
      injection Hs as -> ->. simpl. rewrite drop_app_length. reflexivity.
    + rewrite IH, <- app_assoc. reflexivity.
Qed.

(** X3. Splitting on a non-empty separator and joining the pieces with the
    same separator gives the string back. *)
Theorem split_join_roundtrip (sep s : pystr) :
  sep <> [] -> join sep (split sep s) = s.
Proof. intros Hsep. unfold split. rewrite split_go_join by exact Hsep. reflexivity. Qed.

Lemma split_join_roundtrip_aux (u : pystr) : join wiki_sep (split wiki_sep u) = u.
Proof. unfold split. rewrite split_go_join by discriminate. reflexivity. Qed.

Lemma split_go_absent (sep : pystr) (s : pystr) :
  str_in sep s = false -> forall cur, split_go sep 0 cur s = [cur ++ s].
Proof.
  induction s as [|c s IH]; intros Hin cur; simpl.
  - rewrite app_nil_r. reflexivity.
  - simpl in Hin. apply orb_false_iff in Hin as [Hstart Hin].
    rewrite Hstart, (IH Hin), <- app_assoc. reflexivity.
Qed.

Lemma join_last (sep : pystr) (parts : list pystr) (piece : pystr) :
  last parts = Some piece ->
  join sep parts = piece
  \/ exists pre, join sep parts = pre ++ sep ++ piece.
Proof.
  induction parts as [|p parts IH]; [discriminate|].
  destruct parts as [|q parts].
  - simpl. intros [= <-]. left. reflexivity.
  - rewrite last_cons_cons. intros Hlast. right.
    rewrite join_cons by discriminate.
    destruct (IH Hlast) as [-> | (pre & ->)].
    + exists p. reflexivity.
    + exists (p ++ sep ++ pre). rewrite <- !app_assoc. reflexivity.
Qed.

End StringPrimitives.

(** ** The last segment of a URL and the page-link filter *)

Section Segments.

Lemma split_go_two (sep : pystr) (s : pystr) :
  sep <> [] ->
  str_in sep s = true ->
  forall cur, exists p q rest, split_go sep 0 cur s = p :: q :: rest.
Proof.
  intros Hsep. induction s as [|c s IH]; intros Hin cur.
  - destruct sep; [congruence | discriminate].
  - simpl in Hin. simpl. destruct (starts_with sep (c :: s)) eqn:Hstart.
    + destruct (split_go sep (pred (length sep)) [] s) as [|q rest] eqn:Hgo.
      * exfalso. eapply split_go_nonempty. exact Hgo.
      * exists cur, q, rest. reflexivity.
    + simpl in Hin. apply IH. exact Hin.
Qed.

Lemma wiki_tail_absent (u : pystr) :
  str_in wiki_sep u = false -> wiki_tail u = u.
Proof.
  intros Habsent. unfold wiki_tail, split.
  rewrite (split_go_absent _ _ Habsent). reflexivity.
Qed.

(** X4. The segment [url.split('/wiki/')[-1]] used for the title fallback
    and for the page-link filter: when the string holds no "/wiki/" it is the
    whole string; when it does, the string ends with "/wiki/" followed by the
    segment. *)
Theorem wiki_tail_spec (u : pystr) :
  (str_in wiki_sep u = false -> wiki_tail u = u)
  /\ (str_in wiki_sep u = true ->
      exists pre, u = pre ++ wiki_sep ++ wiki_tail u).
Proof.
  split; [apply wiki_tail_absent|]. unfold wiki_tail.
  intros Hpresent.
  { 
    destruct (split_go_two wiki_sep u ltac:(discriminate) Hpresent [])
      as (p & q & rest & Hsplit).
    destruct (split_last wiki_sep u) as (piece & Hlast & _).
    rewrite Hlast. simpl.
    pose proof (split_join_roundtrip_aux u) as Hjoin.
    unfold split in Hlast, Hjoin. rewrite Hsplit in Hlast, Hjoin.
    rewrite last_cons_cons in Hlast.
    rewrite join_cons in Hjoin by discriminate.
    destruct (join_last wiki_sep (q :: rest) piece Hlast) as [Hq | (pre & Hq)];
      rewrite Hq in Hjoin.
    + exists p. symmetry. exact Hjoin.
    + exists (p ++ wiki_sep ++ pre). rewrite <- Hjoin, <- !app_assoc. reflexivity. }
Qed.

Lemma dropped_link_not_kept (links : list pystr) (href : pystr) :
  str_in colon (wiki_tail href) = true -> href ∉ List.filter kept_link links.
Proof.
  intros Hcolon Hin. apply list_elem_of_In, filter_In in Hin as [_ Hkept].
  unfold kept_link in Hkept. rewrite Hcolon in Hkept. discriminate.
Qed.

(** X5. The loop over the page links evaluates no selector and yields
    article requests only for the links whose last segment holds no ":", in
    page order, up to the first such link that cannot be turned into a
    request; it ends with [ValueError] exactly when there is such a link.  A
    link whose last segment holds a ":" (a namespace page) is skipped without
    being resolved, and so is a link without "/wiki/" that holds a ":"
    anywhere, such as an absolute URL with its scheme. *)
Theorem namespace_link_never_requested
    `{F : Framework} (response : Response) (links : list pystr) :
  yields (page_requests response links)
  = requests_until_error response cb_parse_article (List.filter kept_link links)
  /\ gen_trace (page_requests response links) = []
  /\ (ending (page_requests response links) = None
      <-> all_requestable response (List.filter kept_link links) = true)
  /\ (forall href, str_in colon (wiki_tail href) = true ->
                   href ∉ List.filter kept_link links)
  /\ (forall href, str_in wiki_sep href = false -> str_in colon href = true ->
                   href ∉ List.filter kept_link links).
Proof.
  rewrite page_requests_eq. unfold yields, gen_trace, ending. simpl.
  split; [reflexivity|]. split; [reflexivity|]. split; [|split].
  - destruct (all_requestable response _); split; congruence.
  - apply dropped_link_not_kept.
  - intros href Habsent Hcolon. apply dropped_link_not_kept.
    rewrite (wiki_tail_absent _ Habsent). exact Hcolon.
Qed.

End Segments.

(** ** The classifier, signal by signal *)

Section ClassifierSignals.

Context `{R : PyRuntime}.

(** The plural keyword adds nothing to the category test. *)
Lemma catlinks_plural (cats : list pystr) :
  existsb (fun c => str_in kw_film c || str_in kw_films c)
          (map (fun c => str_lower (strip c)) cats)
  = existsb (fun c => str_in kw_film (str_lower (strip c))) cats.
Proof.
  induction cats as [|c cats IH]; simpl; [reflexivity|].
  rewrite IH. f_equal.
  destruct (str_in kw_film (str_lower (strip c))) eqn:Hs; [reflexivity|].
  destruct (str_in kw_films (str_lower (strip c))) eqn:Hp; [|reflexivity].
  apply kw_films_film in Hp. congruence.
Qed.

Lemma is_film_page_eq (response : Response) :
  is_film_page response
  = ( (if Nat.eqb (infobox_tables response) 0 then [SelInfobox]
       else if caption_signal response then [SelInfobox; SelCaption]
       else if lead_signal response then [SelInfobox; SelCaption; SelLeadPars]
       else if first_th_signal response
            then [SelInfobox; SelCaption; SelLeadPars; SelFirstTh]
            else [SelInfobox; SelCaption; SelLeadPars; SelFirstTh; SelCatLinks]),
      inr (negb (Nat.eqb (infobox_tables response) 0)
           && (caption_signal response || lead_signal response
               || first_th_signal response || catlink_signal response)) ).
Proof.
  unfold is_film_page, caption_signal, lead_signal, first_th_signal,
    catlink_signal.
  rewrite mbind_select.
  destruct (Nat.eqb (infobox_tables response) 0); [reflexivity|].
  simpl negb. cbv iota. rewrite mbind_select.
  destruct (match head (caption_texts response) with
            | Some c => truthy c && str_in kw_film (str_lower c)
            | None => false
            end); [reflexivity|].
  rewrite mbind_select.
  destruct (str_in kw_film (lead_text (lead_texts response))); [reflexivity|].
  rewrite mbind_select.
  destruct (match head (th_texts_all response) with
            | Some t => truthy t && str_in kw_film (str_lower t)
            | None => false
            end); [reflexivity|].
  rewrite mbind_select. unfold mret. simpl. rewrite catlinks_plural. reflexivity.
Qed.

(** X6. The verdict of the classifier: a page is accepted exactly when it has
    an infobox and the keyword occurs in the first caption text, in the
    lower-cased start of the lead paragraphs, in the first infobox header
    text or in a category link text.  The test for the plural keyword never
    changes the verdict. *)
Theorem is_film_page_verdict (response : Response) :
  outcome (is_film_page response)
  = inr (negb (Nat.eqb (infobox_tables response) 0)
         && (caption_signal response || lead_signal response
             || first_th_signal response || catlink_signal response)).
Proof. rewrite is_film_page_eq. reflexivity. Qed.

(** X7. Short circuit: the signals are evaluated in the order caption, lead
    paragraphs, first header, category links, and the classifier stops at the
    first one that matches: the selectors of the later signals are not
    evaluated. *)
Theorem is_film_page_short_circuit (response : Response) :
  trace (is_film_page response)
  = if Nat.eqb (infobox_tables response) 0 then [SelInfobox]
    else if caption_signal response then [SelInfobox; SelCaption]
    else if lead_signal response then [SelInfobox; SelCaption; SelLeadPars]
    else if first_th_signal response
         then [SelInfobox; SelCaption; SelLeadPars; SelFirstTh]
         else [SelInfobox; SelCaption; SelLeadPars; SelFirstTh; SelCatLinks].
Proof. rewrite is_film_page_eq. reflexivity. Qed.

Lemma article_title_trace (response : Response) :
  trace (article_title response) = [SelHeading].
Proof.
  destruct (split_last wiki_sep (url response)) as (tail & _ & Hidx).
  unfold article_title. rewrite mbind_select.
  destruct (negb (truthy (strip _))).
  - rewrite Hidx, !mbind_mret. reflexivity.
  - rewrite mbind_mret. reflexivity.
Qed.

(** X8. A page the classifier rejects yields no record, and apart from the
    heading selector (the title is resolved first) only the selectors of the
    classifier are evaluated on it: the infobox rows are never read. *)
Theorem rejected_page_reads_no_rows (response : Response) :
  outcome (is_film_page response) = inr false ->
  outcome (parse_article response) = inr []
  /\ trace (parse_article response) = SelHeading :: trace (is_film_page response)
  /\ SelInfoboxRows ∉ trace (parse_article response).
Proof.
  intros Hreject. pose proof (article_title_eq response) as Htitle.
  assert (Htrace : trace (parse_article response)
                   = SelHeading :: trace (is_film_page response)).
  { unfold parse_article.
    rewrite (trace_mbind _ _ _ Htitle), article_title_trace.
    rewrite (trace_mbind _ _ _ Hreject). simpl. rewrite app_nil_r. reflexivity. }
  split; [|split; [exact Htrace|]].
  - unfold parse_article.
    rewrite (outcome_mbind _ _ _ Htitle), (outcome_mbind _ _ _ Hreject).
    reflexivity.
  - rewrite Htrace, is_film_page_eq. unfold trace. simpl.
    destruct (Nat.eqb _ 0); [|destruct (caption_signal _);
      [|destruct (lead_signal _); [|destruct (first_th_signal _)]]];
      rewrite !not_elem_of_cons; repeat split; try discriminate;
      apply not_elem_of_nil.
Qed.

End ClassifierSignals.

(** ** Joined texts *)

Section JoinedTexts.

Lemma stripped_parts_tidy (parts : list pystr) :
  Forall tidy (stripped_parts parts).
Proof.
  unfold stripped_parts. apply Forall_forall. intros p Hp.
  apply list_elem_of_fmap in Hp as (t & -> & Ht).
  apply list_elem_of_In, filter_In in Ht as [_ Ht].
  split; [apply truthy_true, Ht|]. split; [apply strip_head | apply strip_last].
Qed.

Lemma join_nonempty (sep p : pystr) (rest : list pystr) :
  p <> [] -> join sep (p :: rest) <> [].
Proof.
  intros Hp. destruct rest; simpl; [exact Hp|].
  destruct p; [congruence | discriminate].
Qed.

Lemma join_tidy (sep : pystr) (parts : list pystr) :
  Forall tidy parts ->
  (forall c, head (join sep parts) = Some c -> isspace c = false)
  /\ (forall c, last (join sep parts) = Some c -> isspace c = false).
Proof.
  induction 1 as [|p rest (Hp & Hhead & Hlast) Hrest [IHhead IHlast]].
  - split; discriminate.
  - destruct rest as [|q rest]; [split; assumption|].
    rewrite join_cons by discriminate. split.
    + intros c. rewrite head_app. destruct p; [congruence|]. apply Hhead.
    + intros c. rewrite !last_app.
      destruct (last (join sep (q :: rest))) as [d|] eqn:Hd.
      * intros [= <-]. apply IHlast. reflexivity.
      * apply last_None in Hd. exfalso. revert Hd. apply join_nonempty.
        inversion Hrest as [|? ? (Hq & _) _]; subst. exact Hq.
Qed.

(** The final [.strip()] after joining trimmed, non-empty parts is a no-op. *)
Lemma strip_join_stripped (sep : pystr) (parts : list pystr) :
  strip (join sep (stripped_parts parts)) = join sep (stripped_parts parts).
Proof.
  destruct (join_tidy sep _ (stripped_parts_tidy parts)) as [Hhead Hlast].
  apply strip_fixed; assumption.
Qed.

Lemma stripped_parts_nil (parts : list pystr) :
  stripped_parts parts = [] <-> Forall (fun t => forallb isspace t = true) parts.
Proof.
  unfold stripped_parts. induction parts as [|t parts IH]; simpl.
  - split; [constructor | reflexivity].
  - destruct (truthy (strip t)) eqn:Ht; simpl.
    + split; [discriminate|]. intros Hall. inversion Hall as [|? ? Hsp _]; subst.
      apply strip_nil_iff in Hsp. apply truthy_true in Ht. contradiction.
    + rewrite IH. apply truthy_false, strip_nil_iff in Ht. split.
      * intros Hall. constructor; assumption.
      * intros Hall. inversion Hall; assumption.
Qed.

Lemma join_stripped_nil (sep : pystr) (parts : list pystr) :
  join sep (stripped_parts parts) = [] <-> stripped_parts parts = [].
Proof.
  split; [|intros ->; reflexivity].
  pose proof (stripped_parts_tidy parts) as Htidy.
  destruct (stripped_parts parts) as [|p rest]; [reflexivity|].
  intros Hjoin. exfalso. revert Hjoin. apply join_nonempty.
  inversion Htidy as [|? ? (Hp & _) _]; subst. exact Hp.
Qed.

(** X9. The joined value of a row is its non-blank [td] texts, each trimmed,
    joined by ", ": the [.strip()] applied after the join changes nothing.
    The value is empty exactly when every [td] text is whitespace only. *)
Theorem row_value_join (row : Row) :
  row_value row = join comma_space (stripped_parts (td_texts row))
  /\ (row_value row = []
      <-> Forall (fun t => forallb isspace t = true) (td_texts row)).
Proof.
  assert (Hv : row_value row = join comma_space (stripped_parts (td_texts row))).
  { unfold row_value.
    destruct (truthy (stripped_parts (td_texts row))) eqn:Hparts.
    - apply strip_join_stripped.
    - apply truthy_false in Hparts. rewrite Hparts. reflexivity. }
  split; [exact Hv|]. rewrite Hv, join_stripped_nil. apply stripped_parts_nil.
Qed.

(** X10. The heading text is the non-blank text fragments of the heading,
    each trimmed, joined by single spaces, and it is empty exactly when every
    fragment is whitespace only (or there is none): only then is the title
    taken from the URL. *)
Theorem heading_text_join `{R : PyRuntime} (response : Response) :
  heading_text response = join space (stripped_parts (heading_texts response))
  /\ (heading_text response = []
      <-> Forall (fun t => forallb isspace t = true) (heading_texts response))
  /\ (heading_text response <> [] ->
      outcome (article_title response) = inr (heading_text response)).
Proof.
  assert (Hh : heading_text response
               = join space (stripped_parts (heading_texts response)))
    by apply strip_join_stripped.
  split; [exact Hh|]. split.
  - rewrite Hh, join_stripped_nil. apply stripped_parts_nil.
  - intros Hne. rewrite article_title_eq.
    apply truthy_true in Hne. rewrite Hne. reflexivity.
Qed.

Lemma heading_text_blank (response : Response) :
  Forall (fun t => forallb isspace t = true) (heading_texts response) ->
  heading_text response = [].
Proof.
  intros Hblank. unfold heading_text. rewrite strip_join_stripped.
  apply join_stripped_nil, stripped_parts_nil, Hblank.
Qed.

(** X19. A page without heading text whose URL holds no "/wiki/": the title
    is decoded from the whole URL ("_" replaced by a space, then
    percent-decoded), and it is the sentinel only if that is empty. *)
Theorem title_from_plain_url `{R : PyRuntime} (response : Response) :
  Forall (fun t => forallb isspace t = true) (heading_texts response) ->
  str_in wiki_sep (url response) = false ->
  outcome (article_title response)
  = inr (if truthy (url_title (url response)) then url_title (url response)
         else sentinel).
Proof.
  intros Hblank Habsent.
  rewrite article_title_eq, (heading_text_blank _ Hblank).
  rewrite (wiki_tail_absent _ Habsent). reflexivity.
Qed.

End JoinedTexts.

(** ** The yielded record *)

Section Items.

Context `{R : PyRuntime}.

Lemma initial_item_sentinel (title : pystr) (k : string) :
  k = "genre" \/ k = "director" \/ k = "country" \/ k = "year" ->
  initial_item title !! k = Some sentinel.
Proof.
  unfold initial_item.
  intros [-> | [-> | [-> | ->]]];
    rewrite ?lookup_insert_ne by discriminate; apply lookup_insert_eq.
Qed.

Lemma process_row_year_some (item : FilmItem) (row : Row) :
  is_Some (item !! "year") -> is_Some (process_row item row !! "year").
Proof.
  intros Hy. rewrite process_row_eq.
  destruct (row_field row) as [f|]; [|exact Hy].
  destruct (truthy (row_value row)); [|exact Hy].
  destruct (decide (f = "year")) as [->|Hne].
  - rewrite lookup_insert_eq. eexists; reflexivity.
  - rewrite lookup_insert_ne by exact Hne. exact Hy.
Qed.

Lemma rows_item_year (title : pystr) (response : Response) :
  is_Some (rows_item title response !! "year").
Proof.
  unfold rows_item.
  assert (Hinit : is_Some (initial_item title !! "year"))
    by (eexists; reflexivity).
  revert Hinit. generalize (initial_item title).
  induction (infobox_rows response) as [|r rows IH]; intros item Hy; simpl.
  - exact Hy.
  - apply IH, process_row_year_some, Hy.
Qed.

(** Lines 97-141 in closed form. *)
Lemma extract_item_eq (title : pystr) (response : Response) :
  extract_item title response
  = ( (if decide (rows_item title response !! "year" = Some sentinel)
       then [SelInfoboxRows; SelLeadPars] else [SelInfoboxRows]),
      inr (with_year_fallback (rows_item title response) response) ).
Proof.
  unfold extract_item, with_year_fallback. rewrite mbind_select.
  fold (rows_item title response).
  destruct (rows_item_year title response) as [y Hy].
  unfold getitem. rewrite Hy, mbind_mret.
  destruct (decide (y = sentinel)) as [->|Hne].
  - rewrite !decide_True by reflexivity. rewrite mbind_select.
    fold (lead_year_text response). reflexivity.
  - rewrite !decide_False by congruence. reflexivity.
Qed.

Lemma with_year_fallback_other
    (item : FilmItem) (response : Response) (k : string) :
  k <> "year" -> with_year_fallback item response !! k = item !! k.
Proof.
  intros Hk. unfold with_year_fallback.
  destruct (decide (item !! "year" = Some sentinel)); [|reflexivity].
  destruct (re_search_year (lead_year_text response)); [|reflexivity].
  apply lookup_insert_ne. congruence.
Qed.

(** X11. The year fallback.  When the infobox rows leave a year other than
    the sentinel, the record keeps it and the lead paragraphs are not read.
    When they leave the sentinel (no year row matched, or a row stored the
    sentinel text itself), the lead paragraphs are read and the year becomes
    the leftmost run of four decimal digits of their trimmed, space-joined
    text, or stays the sentinel when there is none.  No other field is
    affected. *)
Theorem year_fallback (title : pystr) (response : Response) :
  exists item,
    outcome (extract_item title response) = inr item
    /\ (forall k, k <> "year" -> item !! k = rows_item title response !! k)
    /\ (rows_item title response !! "year" <> Some sentinel ->
        item = rows_item title response
        /\ SelLeadPars ∉ trace (extract_item title response))
    /\ (rows_item title response !! "year" = Some sentinel ->
        SelLeadPars ∈ trace (extract_item title response)
        /\ item !! "year"
           = Some (default sentinel (re_search_year (lead_year_text response)))).
Proof.
  eexists. rewrite extract_item_eq. split; [reflexivity|].
  split; [|split].
  - intros k Hk. apply with_year_fallback_other, Hk.
  - intros Hset. unfold with_year_fallback, trace. simpl.
    rewrite !decide_False by exact Hset. split; [reflexivity|].
    rewrite list_elem_of_singleton. discriminate.
  - intros Hunset. unfold with_year_fallback, trace. simpl.
    rewrite !decide_True by exact Hunset. split.
    + rewrite !elem_of_cons. auto.
    + destruct (re_search_year (lead_year_text response)); simpl.
      * apply lookup_insert_eq.
      * exact Hunset.
Qed.

(** X12. A row changes at most the one field its label routes to: every
    other key of the item, the title among them, keeps its value. *)
Theorem process_row_one_field (item : FilmItem) (row : Row) (k : string) :
  row_field row <> Some k -> process_row item row !! k = item !! k.
Proof.
  intros Hk. apply process_row_other. intros Hf. contradiction.
Qed.

(** X13. Processing the same row twice gives the same item as processing it
    once. *)
Theorem process_row_idempotent (item : FilmItem) (row : Row) :
  process_row (process_row item row) row = process_row item row.
Proof.
  rewrite !process_row_eq.
  destruct (row_field row) as [f|]; [|reflexivity].
  destruct (truthy (row_value row)); [|reflexivity].
  apply insert_insert_eq.
Qed.

(** X14. Rows routed to different fields can be processed in either
    order. *)
Theorem process_row_commute (item : FilmItem) (r1 r2 : Row) :
  row_field r1 <> row_field r2 ->
  process_row (process_row item r1) r2 = process_row (process_row item r2) r1.
Proof.
  intros Hne. rewrite !process_row_eq.
  destruct (row_field r1) as [f1|], (row_field r2) as [f2|]; try reflexivity.
  destruct (truthy (row_value r1)), (truthy (row_value r2)); try reflexivity.
  apply insert_insert_ne. congruence.
Qed.

Lemma year_value_idempotent (td : pystr) :
  year_value (year_value td) = year_value td.
Proof.
  unfold year_value at 2 3.
  destruct (re_search_year td) as [m|] eqn:Hm.
  - apply re_search_year_Some in Hm as [Hrun _].
    unfold year_value.
    assert (Hself : re_search_year m = Some m).
    { pose proof (four_digits_prefix m [] Hrun) as Hfour.
      rewrite app_nil_r in Hfour.
      destruct m as [|c m]; [destruct Hrun; discriminate|].
      rewrite re_search_year_cons, Hfour. reflexivity. }
    rewrite Hself. reflexivity.
  - unfold year_value. rewrite Hm. reflexivity.
Qed.

Lemma year_value_sentinel : year_value sentinel = sentinel.
Proof.
  unfold year_value. rewrite re_search_year_tabled by reflexivity. reflexivity.
Qed.

Lemma process_row_year_normal (item : FilmItem) (row : Row) :
  year_normal item -> year_normal (process_row item row).
Proof.
  intros Hitem y. rewrite process_row_eq.
  destruct (row_field row) as [f|]; [|apply Hitem].
  destruct (truthy (row_value row)); [|apply Hitem].
  destruct (decide (f = "year")) as [->|Hne].
  - rewrite lookup_insert_eq. intros [= <-].
    unfold stored_value. simpl. apply year_value_idempotent.
  - rewrite lookup_insert_ne by exact Hne. apply Hitem.
Qed.

Lemma rows_item_year_normal (title : pystr) (response : Response) :
  year_normal (rows_item title response).
Proof.
  unfold rows_item.
  assert (Hinit : year_normal (initial_item title)).
  { intros y Hy. rewrite initial_item_sentinel in Hy by auto.
    injection Hy as <-. apply year_value_sentinel. }
  revert Hinit. generalize (initial_item title).
  induction (infobox_rows response) as [|r rows IH]; intros item Hy; simpl.
  - exact Hy.
  - apply IH, process_row_year_normal, Hy.
Qed.

Lemma with_year_fallback_normal (item : FilmItem) (response : Response) :
  year_normal item -> year_normal (with_year_fallback item response).
Proof.
  intros Hitem. unfold with_year_fallback.
  destruct (decide (item !! "year" = Some sentinel)); [|exact Hitem].
  destruct (re_search_year (lead_year_text response)) as [m|] eqn:Hm;
    [|exact Hitem].
  intros y. rewrite lookup_insert_eq. intros [= <-].
  change m with (default (lead_year_text response) (Some m)).
  rewrite <- Hm. apply year_value_idempotent.
Qed.

Lemma parse_article_eq (response : Response) :
  outcome (parse_article response)
  = inr (if accepted response then [record_of response] else []).
Proof.
  pose proof (article_title_eq response) as Htitle.
  pose proof (is_film_page_eq response) as Hfilm.
  unfold parse_article. rewrite (outcome_mbind _ _ _ Htitle).
  fold (resolved_title response).
  assert (Hverdict : outcome (is_film_page response) = inr (accepted response))
    by (rewrite Hfilm; reflexivity).
  rewrite (outcome_mbind _ _ _ Hverdict).
  destruct (accepted response); simpl negb; cbv iota; [|reflexivity].
  rewrite extract_item_eq. reflexivity.
Qed.

Lemma record_of_year (response : Response) :
  is_Some (record_of response !! "year").
Proof.
  unfold record_of, with_year_fallback.
  destruct (decide (_ = Some sentinel)) as [Hs|_]; [|apply rows_item_year].
  destruct (re_search_year (lead_year_text response));
    [rewrite lookup_insert_eq; eexists; reflexivity | rewrite Hs; eexists; reflexivity].
Qed.

(** X15. The year of every yielded record is normalized: it is either
    exactly a run of four decimal digits, or a text that holds no such run
    (a raw row value, or the sentinel). *)
Theorem yielded_year_shape (response : Response) :
  exists items,
    outcome (parse_article response) = inr items
    /\ Forall (fun item =>
                 exists y, item !! "year" = Some y
                           /\ (digit_run y \/ ~ has_digit_run y)) items.
Proof.
  eexists. split; [apply parse_article_eq|].
  destruct (accepted response); [|constructor].
  constructor; [|constructor].
  destruct (record_of_year response) as [y Hy]. exists y. split; [exact Hy|].
  pose proof (with_year_fallback_normal _ response
                (rows_item_year_normal (resolved_title response) response) y Hy)
    as Hnormal.
  unfold year_value in Hnormal.
  destruct (re_search_year y) as [m|] eqn:Hm.
  - left. subst m. apply re_search_year_Some in Hm as [Hrun _]. exact Hrun.
  - right. apply re_search_year_None, Hm.
Qed.

Lemma row_value_stripped (row : Row) : strip (row_value row) = row_value row.
Proof.
  unfold row_value. destruct (truthy (stripped_parts (td_texts row))).
  - apply strip_fixed; [apply strip_head | apply strip_last].
  - reflexivity.
Qed.

Lemma process_row_trimmed (item : FilmItem) (row : Row) :
  fields_trimmed item -> fields_trimmed (process_row item row).
Proof.
  intros Hitem k v Hk. rewrite process_row_eq.
  destruct (row_field row) as [f|]; [|apply Hitem, Hk].
  destruct (truthy (row_value row)); [|apply Hitem, Hk].
  destruct (decide (f = k)) as [->|Hne].
  - rewrite lookup_insert_eq. intros [= <-]. unfold stored_value.
    rewrite decide_False by (destruct Hk as [-> | [-> | ->]]; discriminate).
    apply row_value_stripped.
  - rewrite lookup_insert_ne by exact Hne. apply Hitem, Hk.
Qed.

Lemma rows_item_trimmed (title : pystr) (response : Response) :
  fields_trimmed (rows_item title response).
Proof.
  unfold rows_item.
  assert (Hinit : fields_trimmed (initial_item title)).
  { intros k v Hk Hv. rewrite initial_item_sentinel in Hv by tauto.
    injection Hv as <-. reflexivity. }
  revert Hinit. generalize (initial_item title).
  induction (infobox_rows response) as [|r rows IH]; intros item Hitem; simpl.
  - exact Hitem.
  - apply IH, process_row_trimmed, Hitem.
Qed.

(** X16. The genre, director and country of every yielded record carry no
    leading or trailing whitespace: stripping them changes nothing. *)
Theorem yielded_fields_trimmed (response : Response) :
  exists items,
    outcome (parse_article response) = inr items
    /\ Forall fields_trimmed items.
Proof.
  eexists. split; [apply parse_article_eq|].
  destruct (accepted response); [|constructor].
  constructor; [|constructor].
  intros k v Hk. unfold record_of.
  rewrite with_year_fallback_other
    by (destruct Hk as [-> | [-> | ->]]; discriminate).
  apply rows_item_trimmed, Hk.
Qed.

(** X17. Graceful degradation: a genre, director or country that no infobox
    row supplies (no row is routed to it with a non-empty joined value) is
    the sentinel in the yielded record. *)
Theorem unmatched_field_is_sentinel (response : Response) (k : string) :
  k = "genre" \/ k = "director" \/ k = "country" ->
  Forall (fun r => row_field r = Some k -> row_value r = [])
         (infobox_rows response) ->
  exists items,
    outcome (parse_article response) = inr items
    /\ Forall (fun item => item !! k = Some sentinel) items.
Proof.
  intros Hk Hrows. eexists. split; [apply parse_article_eq|].
  destruct (accepted response); [|constructor].
  constructor; [|constructor].
  unfold record_of.
  rewrite with_year_fallback_other
    by (destruct Hk as [-> | [-> | ->]]; discriminate).
  unfold rows_item. rewrite (fold_rows_other _ _ _ Hrows).
  apply initial_item_sentinel. tauto.
Qed.

End Items.

(** ** Which callback reads what *)

Section Selectors.

Context `{R : PyRuntime} `{F : Framework}.

Lemma parse_article_trace (response : Response) :
  trace (parse_article response)
  = SelHeading :: trace (is_film_page response)
      ++ (if accepted response
          then trace (extract_item (resolved_title response) response)
          else []).
Proof.
  pose proof (article_title_eq response) as Htitle.
  fold (resolved_title response) in Htitle.
  assert (Hverdict : outcome (is_film_page response) = inr (accepted response))
    by (rewrite is_film_page_eq; reflexivity).
  unfold parse_article.
  rewrite (trace_mbind _ _ _ Htitle), article_title_trace.
  rewrite (trace_mbind _ _ _ Hverdict). simpl. f_equal. f_equal.
  destruct (accepted response); simpl negb; cbv iota; [|reflexivity].
  rewrite extract_item_eq. unfold mbind, mret, trace. simpl.
  rewrite app_nil_r. reflexivity.
Qed.

(** X18. The two callbacks read disjoint parts of a page: [parse] evaluates
    only the subcategory, page-link and pagination selectors, and
    [parse_article] evaluates none of them. *)
Theorem callbacks_read_disjoint_selectors (response : Response) :
  Forall (fun sel => category_selector sel = true)
         (gen_trace (parse response))
  /\ Forall (fun sel => category_selector sel = false)
            (trace (parse_article response)).
Proof.
  split.
  - rewrite parse_eq, link_requests_eq, next_page_requests_eq.
    unfold gen_trace, gbind.
    destruct (all_requestable response (subcategory_hrefs response)); simpl;
      [|repeat constructor].
    destruct (all_requestable response _); simpl; [|repeat constructor].
    destruct (chosen_next response) as [href|];
      [destruct (truthy href); [destruct (follow_url response href)|]|];
      simpl; destruct (truthy_opt _); repeat constructor.
  - rewrite parse_article_trace. constructor; [reflexivity|].
    apply Forall_app. split.
    + rewrite is_film_page_eq. unfold trace. simpl.
      destruct (Nat.eqb _ 0); [|destruct (caption_signal _);
        [|destruct (lead_signal _); [|destruct (first_th_signal _)]]];
        repeat constructor.
    + destruct (accepted response); [|constructor].
      rewrite extract_item_eq. unfold trace. simpl.
      destruct (decide _); repeat constructor.
Qed.

End Selectors.

(** ** The further properties on concrete inputs *)

(** Splitting a URL on "/wiki/" and joining it back. *)
Lemma split_join_roundtrip_witness :
  wiki_sep <> []
  /\ join wiki_sep (split wiki_sep (py "https://ru.wikipedia.org/wiki/Солярис"))
     = py "https://ru.wikipedia.org/wiki/Солярис".
Proof.
  split; [discriminate|]. apply split_join_roundtrip. discriminate.
Defined.

(** The talk page among the page links of [Samples.twice_listed] is
    skipped. *)
Lemma namespace_link_never_requested_witness :
  str_in colon (wiki_tail (py "/wiki/Talk:Solaris_(1972)")) = true
  /\ yields (@page_requests ref_framework Samples.twice_listed
               (page_hrefs Samples.twice_listed))
     = [Build_Request (py "https://ru.wikipedia.org/wiki/Solaris_(1972)")
                      cb_parse_article].
Proof.
  split; [reflexivity|].
  destruct (@namespace_link_never_requested ref_framework Samples.twice_listed
              (page_hrefs Samples.twice_listed)) as (Hyields & _).
  rewrite Hyields. vm_compute. reflexivity.
Defined.

(** [Samples.person_page] is rejected. *)
Lemma rejected_page_reads_no_rows_witness :
  outcome (@is_film_page ref_runtime Samples.person_page) = inr false
  /\ outcome (@parse_article ref_runtime Samples.person_page) = inr []
  /\ SelInfoboxRows ∉ trace (@parse_article ref_runtime Samples.person_page).
Proof.
  split; [reflexivity|].
  destruct (@rejected_page_reads_no_rows ref_runtime Samples.person_page eq_refl)
    as (Hnone & _ & Hrows).
  split; [exact Hnone | exact Hrows].
Defined.

(** A genre row leaves the year alone. *)
Lemma process_row_one_field_witness :
  @row_field ref_runtime (Samples.row "Жанр" "драма") <> Some "year"
  /\ @process_row ref_runtime (initial_item (py "Солярис"))
       (Samples.row "Жанр" "драма") !! "year"
     = Some sentinel.
Proof.
  split; [vm_compute; discriminate|].
  rewrite (@process_row_one_field ref_runtime)
    by (vm_compute; discriminate).
  reflexivity.
Defined.

(** A genre row and a year row, in both orders. *)
Lemma process_row_commute_witness :
  @row_field ref_runtime (Samples.row "Жанр" "драма")
  <> @row_field ref_runtime (Samples.row "Год" "1972")
  /\ @process_row ref_runtime
       (@process_row ref_runtime (initial_item (py "Солярис"))
          (Samples.row "Жанр" "драма"))
       (Samples.row "Год" "1972")
     = @process_row ref_runtime
         (@process_row ref_runtime (initial_item (py "Солярис"))
            (Samples.row "Год" "1972"))
         (Samples.row "Жанр" "драма").
Proof.
  split; [vm_compute; discriminate|].
  apply (@process_row_commute ref_runtime). vm_compute. discriminate.
Defined.

(** [Samples.untitled_film] has no director row. *)
Lemma unmatched_field_is_sentinel_witness :
  exists items,
    outcome (@parse_article ref_runtime Samples.untitled_film) = inr items
    /\ Forall (fun item => item !! "director" = Some sentinel) items.
Proof.
  apply (@unmatched_field_is_sentinel ref_runtime Samples.untitled_film
           "director").
  - auto.
  - repeat constructor; vm_compute; discriminate.
Defined.

(** A page fetched from a URL without "/wiki/" and with a blank heading. *)
Lemma title_from_plain_url_witness :
  str_in wiki_sep (py "https://example.org/Solaris_1972") = false
  /\ outcome (@article_title ref_runtime
                (Samples.empty_page (py "https://example.org/Solaris_1972")))
     = inr (py "https://example.org/Solaris 1972").
Proof.
  split; [reflexivity|].
  rewrite (@title_from_plain_url ref_runtime); [reflexivity | constructor | reflexivity].
Defined.
